(** * Shallow embedding of [main.py] of Git-Automation.

    The program is sequential orchestration of two external systems: the
    [git] command-line tool (reached through [subprocess.run]) plus the
    filesystem, and the GitHub REST API (reached through PyGithub).

    - The operating system is the type class [OS]: a world [W] and the
      primitives the script calls ([subprocess.run], [Path.exists],
      [Path.is_dir], [Path.iterdir], [Path.write_text], [os.environ.get],
      [getpass], [input], [Path.resolve]).
    - The GitHub account is a concrete store ([Hub]): its repositories,
      the tokens it accepts and whether it accepts a default-branch edit.
    - Python exceptions are a state-preserving exception monad [M]: the
      state mutated before a [raise] is kept, as in Python.
    - Everything the script does to the outside is recorded in [trace]
      (commands run, files written); console lines go to [logs]; the
      [ProjectProcessor.summary] list is [summary]. *)

From Stdlib Require Import String Ascii List Bool ZArith Lia Sorting.Permutation Sorting.Sorted.
Import ListNotations.
Open Scope string_scope.

(** ** Python string helpers *)

(** Python truthiness of an optional string ([None] and [""] are false). *)
Definition truthy (o : option string) : bool :=
  match o with
  | Some s => negb (String.eqb s "")
  | None => false
  end.

Definition ascii_upper (c : ascii) : ascii :=
  let n := nat_of_ascii c in
  if Nat.leb 97 n && Nat.leb n 122 then ascii_of_nat (n - 32) else c.

Definition ascii_lower (c : ascii) : ascii :=
  let n := nat_of_ascii c in
  if Nat.leb 65 n && Nat.leb n 90 then ascii_of_nat (n + 32) else c.

(** [str.upper] / [str.lower] on ASCII text. *)
Fixpoint str_upper (s : string) : string :=
  match s with
  | EmptyString => EmptyString
  | String c r => String (ascii_upper c) (str_upper r)
  end.

Fixpoint str_lower (s : string) : string :=
  match s with
  | EmptyString => EmptyString
  | String c r => String (ascii_lower c) (str_lower r)
  end.

(** [str.replace(old, new)]: every non-overlapping occurrence of [old],
    scanned left to right, is replaced; the fuel is the length of the
    subject, enough since every step consumes at least one character. *)
Fixpoint replace_fuel (fuel : nat) (old new s : string) : string :=
  match fuel with
  | O => s
  | S f =>
      match s with
      | EmptyString => EmptyString
      | String c r =>
          if String.prefix old s
          then new ++ replace_fuel f old new
                        (substring (String.length old)
                                   (String.length s - String.length old) s)
          else String c (replace_fuel f old new r)
      end
  end.

(** With an empty [old], Python inserts [new] before every character and
    at the end. *)
Fixpoint interleave (new s : string) : string :=
  match s with
  | EmptyString => new
  | String c r => new ++ String c (interleave new r)
  end.

Definition str_replace (s old new : string) : string :=
  if String.eqb old "" then interleave new s
  else replace_fuel (String.length s) old new s.

(** [c in s]. *)
Fixpoint has_char (c : ascii) (s : string) : bool :=
  match s with
  | EmptyString => false
  | String a r => Ascii.eqb c a || has_char c r
  end.

(** Decimal rendering of an integer ([str(n)]). *)
Fixpoint digits (fuel : nat) (n : N) (acc : string) : string :=
  match fuel with
  | O => acc
  | S f =>
      let acc' := String (ascii_of_N (48 + N.modulo n 10)) acc in
      if N.ltb n 10 then acc' else digits f (N.div n 10) acc'
  end.

Definition z_str (z : Z) : string :=
  match z with
  | Z0 => "0"
  | Zpos p => digits (Pos.to_nat p) (Npos p) ""
  | Zneg p => "-" ++ digits (Pos.to_nat p) (Npos p) ""
  end.

(** [repr] of a list of strings, as in [['git', 'init']]. *)
Definition list_repr (l : list string) : string :=
  "[" ++ String.concat ", " (map (fun a => "'" ++ a ++ "'") l) ++ "]".

(** [Path / name]. *)
Definition path_join (dir name : string) : string := dir ++ "/" ++ name.

(** ** Exceptions *)

Inductive Exc :=
| CalledProcessError (cmd : list string) (returncode : Z)
| RuntimeError (msg : string)
| NotADirectoryError (msg : string)
| GithubException (status : Z) (text : string)  (* [text] is [str(e)] *)
| EOFError                                      (* [input] or [getpass] at end of input *)
| SystemExit (code : Z).

(** [except Exception] catches everything but [SystemExit], which
    derives from [BaseException] only. *)
Definition is_Exception (e : Exc) : bool :=
  match e with SystemExit _ => false | _ => true end.

(** The members of [signal.Signals] on Linux (CPython 3.11), by number,
    under their canonical names. *)
Definition signal_names : list (Z * string) :=
  [(1, "SIGHUP"); (2, "SIGINT"); (3, "SIGQUIT"); (4, "SIGILL"); (5, "SIGTRAP");
   (6, "SIGABRT"); (7, "SIGBUS"); (8, "SIGFPE"); (9, "SIGKILL"); (10, "SIGUSR1");
   (11, "SIGSEGV"); (12, "SIGUSR2"); (13, "SIGPIPE"); (14, "SIGALRM"); (15, "SIGTERM");
   (16, "SIGSTKFLT"); (17, "SIGCHLD"); (18, "SIGCONT"); (19, "SIGSTOP"); (20, "SIGTSTP");
   (21, "SIGTTIN"); (22, "SIGTTOU"); (23, "SIGURG"); (24, "SIGXCPU"); (25, "SIGXFSZ");
   (26, "SIGVTALRM"); (27, "SIGPROF"); (28, "SIGWINCH"); (29, "SIGIO"); (30, "SIGPWR");
   (31, "SIGSYS"); (34, "SIGRTMIN"); (64, "SIGRTMAX")]%Z.

(** [str(e)]. A [CalledProcessError] with a negative status names the
    signal by the [repr] of its [signal.Signals] member, as in
    [died with <Signals.SIGKILL: 9>.]. The text of a [GithubException]
    is carried by the exception: PyGithub renders the status and the
    JSON-encoded body of the answer, in a form that depends on its
    version. [str(EOFError())] is empty. *)
Definition exc_str (e : Exc) : string :=
  match e with
  | CalledProcessError cmd rc =>
      if Z.ltb rc 0
      then match find (fun kv => Z.eqb (fst kv) (Z.opp rc)) signal_names with
           | Some (_, nm) =>
               "Command '" ++ list_repr cmd ++ "' died with <Signals." ++ nm ++ ": "
               ++ z_str (Z.opp rc) ++ ">."
           | None =>
               "Command '" ++ list_repr cmd ++ "' died with unknown signal "
               ++ z_str (Z.opp rc) ++ "."
           end
      else "Command '" ++ list_repr cmd ++ "' returned non-zero exit status " ++ z_str rc ++ "."
  | RuntimeError m => m
  | NotADirectoryError m => m
  | GithubException _ t => t
  | EOFError => ""
  | SystemExit c => z_str c
  end.

(** ** The operating system *)

(** A command as [subprocess.run] receives it: the argument vector, the
    working directory and the variables [env] lays over [os.environ]. *)
Record Cmd := mkCmd { c_args : list string; c_cwd : string; c_env : list (string * string) }.

(** The primitives the script reaches outside Python with. *)
Class OS (W : Type) := {
  os_run : W -> Cmd -> Z * W;                (* [subprocess.run]: exit status *)
  os_exists : W -> string -> bool;           (* [Path.exists] *)
  os_is_dir : W -> string -> bool;           (* [Path.is_dir] *)
  os_iterdir : W -> string -> list string;   (* names [Path.iterdir] yields, in OS order,
                                                for a directory the process can list *)
  os_write_text : W -> string -> string -> W; (* [Path.write_text] *)
  os_getenv : W -> string -> option string;  (* [os.environ.get] *)
  os_getpass : W -> option string;           (* [getpass.getpass]; [None] at end of input *)
  os_input : W -> option string;             (* [input]; [None] at end of input *)
  os_resolve : W -> string -> string;        (* [Path(..).expanduser().resolve()] *)
  os_pygithub : bool;                        (* [from github import Github] succeeded *)
  os_gh_error : Z -> string -> string        (* [str(e)] of the [GithubException] PyGithub
                                                raises for an answer with this status and message *)
}.

(** ** The GitHub account *)

(** The attributes of a [github.Repository.Repository] the script uses
    or sets. *)
Record Repo := mkRepo {
  repo_name : string;
  repo_private : bool;
  repo_description : string;
  repo_auto_init : bool;
  repo_default_branch : string;
  ssh_url : string;
  clone_url : string
}.

(** The account of the token's owner: its login, its repositories, the
    tokens the API accepts, and whether the API accepts a change of the
    default branch through [repo.edit]. *)
Record Hub := mkHub {
  hub_login : string;
  hub_repos : list Repo;
  hub_accepts : string -> bool;
  hub_edit_ok : bool
}.

(** The URLs GitHub gives a repository [login/name]. *)
Definition gh_ssh_url (login name : string) : string :=
  "git@github.com:" ++ login ++ "/" ++ name ++ ".git".
Definition gh_clone_url (login name : string) : string :=
  "https://github.com/" ++ login ++ "/" ++ name ++ ".git".

(** ** Observable effects *)

Inductive Event :=
| ERun (c : Cmd)                           (* an external command started *)
| EWrite (path : string) (text : string).  (* a file written *)

Inductive Log :=
| LInfo (msg : string)
| LWarning (msg : string)
| LError (msg : string).

Section Program.
Context {W : Type} `{OS W}.

Record St := mkSt {
  world : W;
  hub : Hub;
  trace : list Event;
  logs : list Log;
  summary : list (string * bool * string)
}.

(** ** A state-preserving exception monad *)

Definition M (A : Type) : Type := St -> St * (Exc + A).

Definition ret {A} (a : A) : M A := fun s => (s, inr a).
Definition bind {A B} (m : M A) (k : A -> M B) : M B :=
  fun s => match m s with
           | (s', inl e) => (s', inl e)
           | (s', inr a) => k a s'
           end.

Notation "x <- m ;; k" := (bind m (fun x => k))
  (at level 61, m at next level, right associativity).
Notation "m ;; k" := (bind m (fun _ => k))
  (at level 61, right associativity).
Definition raise {A} (e : Exc) : M A := fun s => (s, inl e).

(** [try: m except <e if catches e>: h e]. *)
Definition try_except {A} (catches : Exc -> bool) (m : M A) (h : Exc -> M A) : M A :=
  fun s => match m s with
           | (s', inl e) => if catches e then h e s' else (s', inl e)
           | r => r
           end.

Definition is_CalledProcessError (e : Exc) : bool :=
  match e with CalledProcessError _ _ => true | _ => false end.
Definition is_GithubException (e : Exc) : bool :=
  match e with GithubException _ _ => true | _ => false end.
Definition any_exc (e : Exc) : bool := true.

Definition gets {A} (f : St -> A) : M A := fun s => (s, inr (f s)).
Definition modify (f : St -> St) : M unit := fun s => (f s, inr tt).


Definition set_world (w : W) (s : St) : St :=
  mkSt w (hub s) (trace s) (logs s) (summary s).
Definition set_hub (h : Hub) (s : St) : St :=
  mkSt (world s) h (trace s) (logs s) (summary s).
Definition add_event (e : Event) (s : St) : St :=
  mkSt (world s) (hub s) (trace s ++ [e])%list (logs s) (summary s).
Definition add_log (l : Log) (s : St) : St :=
  mkSt (world s) (hub s) (trace s) (logs s ++ [l])%list (summary s).
Definition add_outcome (o : string * bool * string) (s : St) : St :=
  mkSt (world s) (hub s) (trace s) (logs s) (summary s ++ [o])%list.

(** [logger.info], [logger.warning], [logger.error]; the colour prefixes
    of [colorama] are left out. [logger.debug] prints nothing at level
    INFO and is not modelled. *)
Definition info (m : string) : M unit := modify (add_log (LInfo m)).
Definition warning (m : string) : M unit := modify (add_log (LWarning m)).
Definition error (m : string) : M unit := modify (add_log (LError m)).

(** [run_git_cmd(args, cwd, check, capture_output, env)]: runs the command
    and, when [check] holds and the exit status is non-zero, raises
    [CalledProcessError]. Capturing only changes what [logger.debug]
    would print, so [capture_output] has no observable effect. *)
Definition run_git_cmd (args : list string) (cwd : string) (check capture_output : bool)
    (env : list (string * string)) : M Z :=
  fun s =>
    let c := mkCmd args cwd env in
    let (rc, w') := os_run (world s) c in
    let s' := add_event (ERun c) (set_world w' s) in
    if check && negb (Z.eqb rc 0)
    then (s', inl (CalledProcessError args rc))
    else (s', inr rc).

Definition path_exists (p : string) : M bool := gets (fun s => os_exists (world s) p).
Definition path_is_dir (p : string) : M bool := gets (fun s => os_is_dir (world s) p).
Definition path_iterdir (p : string) : M (list string) := gets (fun s => os_iterdir (world s) p).
Definition write_text (p text : string) : M unit :=
  modify (fun s => add_event (EWrite p text) (set_world (os_write_text (world s) p text) s)).

(** ** [get_subdirectories] *)

(** A project folder: a [Path] and its [.name]. *)
Record Project := mkProject { p_path : string; p_name : string }.

(** Sibling paths compare as their names do: [PurePath] compares the
    lists of their parts, and those share the parent's parts. [sorted]
    is an insertion sort on the names, by code point. *)
Fixpoint insert_name (n : string) (l : list string) : list string :=
  match l with
  | [] => [n]
  | m :: r => if String.leb n m then n :: m :: r else m :: insert_name n r
  end.

Fixpoint sort_names (l : list string) : list string :=
  match l with
  | [] => []
  | n :: r => insert_name n (sort_names r)
  end.

Definition is_hidden (name : string) : bool := String.prefix "." name.

(** The pure part: the sorted children that are directories and do not
    start with ['.']. *)
Definition select_subdirs (w : W) (parent : string) : list Project :=
  map (fun n => mkProject (path_join parent n) n)
      (filter (fun n => os_is_dir w (path_join parent n) && negb (is_hidden n))
              (sort_names (os_iterdir w parent))).

Definition get_subdirectories (parent : string) : M (list Project) :=
  d <- path_is_dir parent ;;
  if negb d
  then raise (NotADirectoryError ("Parent path is not a directory: " ++ parent))
  else gets (fun s => select_subdirs (world s) parent).


(** ** The GitHub API (PyGithub) *)

Definition find_repo (name : string) (l : list Repo) : option Repo :=
  find (fun r => String.eqb (repo_name r) name) l.

(** [AuthenticatedUser.get_repo(name)]: [GET /repos/{login}/{name}]. *)
Definition gh_get_repo (name : string) : M Repo :=
  h <- gets hub ;;
  match find_repo name (hub_repos h) with
  | Some r => ret r
  | None => raise (GithubException 404 (os_gh_error 404 "Not Found"))
  end.

(** [AuthenticatedUser.create_repo(name, private, description, auto_init)]:
    GitHub refuses a name the account already has and gives a new
    repository the default branch ["main"]. *)
Definition gh_create_repo (name : string) (private : bool) (description : string)
    (auto_init : bool) : M Repo :=
  h <- gets hub ;;
  match find_repo name (hub_repos h) with
  | Some _ => raise (GithubException 422 (os_gh_error 422 "name already exists on this account"))
  | None =>
      let r := mkRepo name private description auto_init "main"
                      (gh_ssh_url (hub_login h) name) (gh_clone_url (hub_login h) name) in
      modify (set_hub (mkHub (hub_login h) (hub_repos h ++ [r])%list (hub_accepts h) (hub_edit_ok h))) ;;
      ret r
  end.

Definition with_default_branch (b : string) (r : Repo) : Repo :=
  mkRepo (repo_name r) (repo_private r) (repo_description r) (repo_auto_init r) b
         (ssh_url r) (clone_url r).

(** [repo.edit(name=name, default_branch=b)]: on success PyGithub updates
    the object in place from the response. *)
Definition gh_edit_default_branch (r : Repo) (b : string) : M Repo :=
  h <- gets hub ;;
  if hub_edit_ok h
  then let r' := with_default_branch b r in
       modify (set_hub (mkHub (hub_login h)
                 (map (fun x => if String.eqb (repo_name x) (repo_name r) then r' else x) (hub_repos h))
                 (hub_accepts h) (hub_edit_ok h))) ;;
       ret r'
  else raise (GithubException 422 (os_gh_error 422 "Validation Failed")).

(** [GitHubManager.__init__(token)]: the manager is its [username]. *)
Definition GitHubManager_init (tok : string) : M string :=
  if negb os_pygithub
  then raise (RuntimeError "PyGithub is required. Install with: pip install PyGithub")
  else try_except is_GithubException
         (h <- gets hub ;;
          if hub_accepts h tok then ret (hub_login h)
          else raise (GithubException 401 (os_gh_error 401 "Bad credentials")))
         (fun e => raise (RuntimeError ("Failed to authenticate to GitHub: " ++ exc_str e))).

(** [GitHubManager.create_repo]. The early [return repo] of the inner
    [try] is the [Some] branch. *)
Definition create_repo (name : string) (private : bool) (description : string)
    (auto_init : bool) (default_branch : option string) : M Repo :=
  try_except is_GithubException
    (found <- try_except is_Exception
                (repo <- gh_get_repo name ;;
                 info ("Repo already exists on GitHub: " ++ name) ;;
                 ret (Some repo))
                (fun _ => ret None) ;;
     match found with
     | Some repo => ret repo
     | None =>
         repo <- (if truthy default_branch then
                    repo <- gh_create_repo name private description auto_init ;;
                    match default_branch with
                    | Some b =>
                        if truthy default_branch && negb (String.eqb b (repo_default_branch repo))
                        then try_except is_Exception (gh_edit_default_branch repo b)
                                        (fun _ => ret repo)
                        else ret repo
                    | None => ret repo
                    end
                  else gh_create_repo name private description auto_init) ;;
         info ("Created GitHub repo: " ++ name) ;;
         ret repo
     end)
    (fun e => raise (RuntimeError ("GitHub create repo failed: " ++ exc_str e))).

(** ** [ProjectProcessor] *)

(** [do_branch_ops]: the dict with the optional keys ['create'],
    ['rename'] (a pair) and ['switch']. *)
Record BranchOps := mkBranchOps {
  bo_create : option string;
  bo_rename : option (string * string);
  bo_switch : option string
}.

Definition no_branch_ops : BranchOps := mkBranchOps None None None.

Record Processor := mkProcessor {
  parent_dir : string;
  github_manager : option string;   (* the manager, by its [username] *)
  token : option string;
  git_name : option string;
  git_email : option string;
  protocol : string;
  private : bool;
  default_branch : string;
  push_via_token_in_https : bool;
  do_branch_ops : BranchOps
}.

(** [ProjectProcessor.__init__]: the protocol is upper-cased. *)
Definition make_processor (parent : string) (gm tok name email : option string)
    (proto : string) (priv : bool) (branch : string) (via : bool) (ops : BranchOps) : Processor :=
  mkProcessor parent gm tok name email (str_upper proto) priv branch via ops.

(** The processor with another access token. *)
Definition set_token (t : option string) (pr : Processor) : Processor :=
  mkProcessor (parent_dir pr) (github_manager pr) t (git_name pr) (git_email pr)
    (protocol pr) (private pr) (default_branch pr) (push_via_token_in_https pr)
    (do_branch_ops pr).

Definition nl : string := String (ascii_of_nat 10) EmptyString.

Definition when_truthy (o : option string) (f : string -> M unit) : M unit :=
  match o with
  | Some v => if truthy o then f v else ret tt
  | None => ret tt
  end.

(** [default_initial_branch_name]. *)
Definition default_initial_branch_name (repo_name : string) : string := "main".

(** [_has_commits]. *)
Definition has_commits (cwd : string) : M bool :=
  try_except is_CalledProcessError
    (run_git_cmd ["git"; "rev-parse"; "--is-inside-work-tree"] cwd true true [] ;;
     run_git_cmd ["git"; "rev-parse"; "HEAD"] cwd true true [] ;;
     ret true)
    (fun _ => ret false).

(** Step 1: [git init] unless [.git] exists. *)
Definition step_git_init (cwd : string) : M unit :=
  ex <- path_exists (path_join cwd ".git") ;;
  if negb ex
  then info ".git not found -> initializing git repository" ;;
       run_git_cmd ["git"; "init"] cwd true false [] ;; ret tt
  else info ".git found -> skipping git init".

(** Step 2: repository-local identity. *)
Definition step_git_config (pr : Processor) (cwd : string) : M unit :=
  when_truthy (git_name pr)
    (fun v => run_git_cmd ["git"; "config"; "user.name"; v] cwd true false [] ;; ret tt) ;;
  when_truthy (git_email pr)
    (fun v => run_git_cmd ["git"; "config"; "user.email"; v] cwd true false [] ;; ret tt).

(** Step 3: the branch name. *)
Definition branch_name_of (pr : Processor) (name : string) : string :=
  if truthy (Some (default_branch pr)) then default_branch pr
  else default_initial_branch_name name.

(** The placeholder [README.md] text. *)
Definition readme_text (name : string) : string :=
  "# " ++ name ++ nl ++ nl ++ "Initial commit by git-automation CLI" ++ nl.

(** Step 3, lines 220-221: a placeholder [README.md] if the folder is empty. *)
Definition ensure_placeholder (name cwd : string) : M unit :=
  entries <- path_iterdir cwd ;;
  match entries with
  | [] => write_text (path_join cwd "README.md") (readme_text name)
  | _ => ret tt
  end.

(** The commands of the initial-commit block, lines 224-227. *)
Definition initial_commit_cmds (branch : string) : list (list string) :=
  [["git"; "add"; "-A"]; ["git"; "checkout"; "-b"; branch];
   ["git"; "commit"; "-m"; "Initial commit"]].

Definition initial_commit_warning : string :=
  "Initial commit failed or nothing to commit; continuing".

(** Step 3, lines 223-230: the [try] block of the initial commit. *)
Definition initial_commit_block (cwd branch : string) : M unit :=
  try_except is_CalledProcessError
    (run_git_cmd ["git"; "add"; "-A"] cwd true false [] ;;
     run_git_cmd ["git"; "checkout"; "-b"; branch] cwd true false [] ;;
     run_git_cmd ["git"; "commit"; "-m"; "Initial commit"] cwd true false [] ;;
     ret tt)
    (fun _ => warning initial_commit_warning).

(** Step 3, lines 232-236: switch to the branch, creating it if missing. *)
Definition switch_block (cwd branch : string) : M unit :=
  try_except is_CalledProcessError
    (run_git_cmd ["git"; "checkout"; branch] cwd true false [] ;; ret tt)
    (fun _ => run_git_cmd ["git"; "checkout"; "-b"; branch] cwd true false [] ;; ret tt).

(** Step 3: the initial commit, or the switch to the branch. *)
Definition step_initial_commit (name cwd branch : string) : M unit :=
  hc <- has_commits cwd ;;
  if negb hc then
    ensure_placeholder name cwd ;;
    initial_commit_block cwd branch
  else switch_block cwd branch.

(** Step 4: the remote URL for a repository handle. *)
Definition remote_url_for (pr : Processor) (repo : Repo) : string :=
  let u := if String.eqb (protocol pr) "SSH" then ssh_url repo else clone_url repo in
  match token pr with
  | Some t =>
      if String.eqb (protocol pr) "HTTPS" && push_via_token_in_https pr && truthy (token pr)
      then str_replace u "https://" ("https://" ++ t ++ "@")
      else u
  | None => u
  end.

(** Step 4: create the GitHub repository and point [origin] at it. *)
Definition step_remote (pr : Processor) (name cwd branch : string) : M unit :=
  match github_manager pr with
  | None => ret tt
  | Some _ =>
      repo <- create_repo name (private pr) "" false (Some branch) ;;
      let remote_url := remote_url_for pr repo in
      try_except is_Exception
        (run_git_cmd ["git"; "remote"; "remove"; "origin"] cwd false false [] ;; ret tt)
        (fun _ => ret tt) ;;
      run_git_cmd ["git"; "remote"; "add"; "origin"; remote_url] cwd true false [] ;;
      info ("Remote origin set to: " ++ remote_url)
  end.

(** Step 5: the push; its failure is re-raised as a [RuntimeError]. *)
Definition push_env (pr : Processor) : list (string * string) :=
  if String.eqb (protocol pr) "HTTPS" && negb (push_via_token_in_https pr)
  then [("GIT_TERMINAL_PROMPT", "0")] else [].

Definition step_push (pr : Processor) (name cwd branch : string) : M unit :=
  try_except is_CalledProcessError
    (run_git_cmd ["git"; "push"; "-u"; "origin"; branch] cwd true false (push_env pr) ;;
     info ("Pushed " ++ name ++ " to origin/" ++ branch))
    (fun e => raise (RuntimeError ("Failed to push " ++ name ++ ": " ++ exc_str e))).

(** Step 6, lines 297-304: create and push a branch. *)
Definition branch_create_block (cwd n : string) : M unit :=
  try_except is_CalledProcessError
    (run_git_cmd ["git"; "checkout"; "-b"; n] cwd true false [] ;;
     run_git_cmd ["git"; "push"; "-u"; "origin"; n] cwd true false [] ;;
     info ("Created and pushed branch " ++ n))
    (fun _ => warning ("Could not create branch " ++ n)).

(** Step 6, lines 306-314: rename a branch locally and on [origin]. *)
Definition branch_rename_block (cwd old new : string) : M unit :=
  try_except is_CalledProcessError
    (run_git_cmd ["git"; "branch"; "-m"; old; new] cwd true false [] ;;
     run_git_cmd ["git"; "push"; "origin"; ":" ++ old] cwd true false [] ;;
     run_git_cmd ["git"; "push"; "-u"; "origin"; new] cwd true false [] ;;
     info ("Renamed branch " ++ old ++ " -> " ++ new))
    (fun _ => warning ("Could not rename branch " ++ old ++ " -> " ++ new)).

(** Step 6, lines 316-322: switch to a branch. *)
Definition branch_switch_block (cwd n : string) : M unit :=
  try_except is_CalledProcessError
    (run_git_cmd ["git"; "checkout"; n] cwd true false [] ;;
     info ("Switched to branch " ++ n))
    (fun _ => warning ("Could not switch to branch " ++ n)).

(** Step 6: [_do_branch_operations]; the three [if]s are independent. *)
Definition do_branch_operations (pr : Processor) (cwd : string) : M unit :=
  let ops := do_branch_ops pr in
  match ops with
  | mkBranchOps None None None => ret tt
  | _ =>
      when_truthy (bo_create ops) (branch_create_block cwd) ;;
      (match bo_rename ops with
       | Some (old, new) => branch_rename_block cwd old new
       | None => ret tt
       end) ;;
      when_truthy (bo_switch ops) (branch_switch_block cwd)
  end.

(** [process_project], lines 196-275: everything up to the success entry. *)
Definition process_project_steps (pr : Processor) (p : Project) : M unit :=
  info (nl ++ "=== Processing: " ++ p_name p ++ " ===") ;;
  let cwd := p_path p in
  step_git_init cwd ;;
  step_git_config pr cwd ;;
  let branch := branch_name_of pr (p_name p) in
  step_initial_commit (p_name p) cwd branch ;;
  step_remote pr (p_name p) cwd branch ;;
  step_push pr (p_name p) cwd branch ;;
  do_branch_operations pr cwd.

(** [process_project]. *)
Definition process_project (pr : Processor) (p : Project) : M unit :=
  process_project_steps pr p ;;
  modify (add_outcome (p_name p, true, "OK")) ;;
  info ("=== Finished: " ++ p_name p ++ " ===" ++ nl).

(** The loop of [process_all]: each project inside [try ... except
    Exception]. *)
Fixpoint process_loop (pr : Processor) (ps : list Project) : M unit :=
  match ps with
  | [] => ret tt
  | p :: rest =>
      try_except is_Exception (process_project pr p)
        (fun e => error ("Failed processing " ++ p_name p ++ ": " ++ exc_str e) ;;
                  modify (add_outcome (p_name p, false, exc_str e))) ;;
      process_loop pr rest
  end.

Definition summary_header : string := nl ++ "=== Summary ===".

Fixpoint log_entries (l : list (string * bool * string)) : M unit :=
  match l with
  | [] => ret tt
  | (name, _, msg) :: r => info ("  - " ++ name ++ ": " ++ msg) ;; log_entries r
  end.

(** [report_summary]. *)
Definition report_summary : M unit :=
  sm <- gets summary ;;
  let ok := filter (fun o => snd (fst o)) sm in
  let fail := filter (fun o => negb (snd (fst o))) sm in
  info summary_header ;;
  info ("Succeeded: " ++ z_str (Z.of_nat (length ok))) ;;
  log_entries ok ;;
  info ("Failed: " ++ z_str (Z.of_nat (length fail))) ;;
  log_entries fail.

(** [process_all]. *)
Definition process_all (pr : Processor) : M unit :=
  projects <- get_subdirectories (parent_dir pr) ;;
  match projects with
  | [] => info "No subdirectories found under the parent path."
  | _ =>
      info ("Found " ++ z_str (Z.of_nat (length projects)) ++ " projects. Beginning processing in order.") ;;
      process_loop pr projects ;;
      report_summary
  end.

(** ** [main] *)

(** The parsed command line. *)
Record Args := mkArgs {
  a_parent : string;
  a_token : option string;
  a_token_from_env : option string;
  a_name : option string;
  a_email : option string;
  a_protocol : string;
  a_private : bool;
  a_default_branch : string;
  a_https_token : bool;
  a_create_branch : option string;
  a_rename_branch : option (string * string);
  a_switch_branch : option string;
  a_yes : bool
}.

Definition sys_exit {A} (code : Z) : M A := raise (SystemExit code).

(** The token lookup of [main], lines 378-396. *)
Definition obtain_token (args : Args) : M string :=
  tok <- (if truthy (a_token args) then ret (a_token args)
          else if truthy (a_token_from_env args) then
            let var := match a_token_from_env args with Some v => v | None => "" end in
            t <- gets (fun s => os_getenv (world s) var) ;;
            if negb (truthy t)
            then error ("Environment variable " ++ var ++ " not set or empty") ;; sys_exit 1
            else ret t
          else if negb (a_yes args)
          then t <- gets (fun s => os_getpass (world s)) ;;
               match t with None => raise EOFError | Some t => ret (Some t) end
          else error "No token supplied and --yes set; cannot safely prompt for token." ;; sys_exit 1) ;;
  if negb (truthy tok)
  then error "A GitHub token is required to create repositories via the API." ;; sys_exit 1
  else ret (match tok with Some t => t | None => "" end).

Definition branch_ops_of (args : Args) : BranchOps :=
  mkBranchOps (if truthy (a_create_branch args) then a_create_branch args else None)
              (a_rename_branch args)
              (if truthy (a_switch_branch args) then a_switch_branch args else None).

Definition main (args : Args) : M unit :=
  parent <- gets (fun s => os_resolve (world s) (a_parent args)) ;;
  d <- path_is_dir parent ;;
  (if negb d then error ("Parent path is not a directory: " ++ parent) ;; sys_exit 1
   else ret tt) ;;
  tok <- obtain_token args ;;
  gh <- try_except is_Exception (GitHubManager_init tok)
          (fun e => error ("GitHub authentication failed: " ++ exc_str e) ;; sys_exit 1) ;;
  info ("Authenticated to GitHub as: " ++ gh) ;;
  let processor := make_processor parent (Some gh) (Some tok) (a_name args) (a_email args)
                     (a_protocol args) (a_private args) (a_default_branch args)
                     (a_https_token args) (branch_ops_of args) in
  info ("Parent directory: " ++ parent) ;;
  info "Number of projects: will scan all immediate subdirectories" ;;
  info ("GitHub account: " ++ gh) ;;
  info ("Protocol: " ++ a_protocol args) ;;
  info ("Default branch: " ++ a_default_branch args) ;;
  info ("Create repos as private: " ++ (if a_private args then "True" else "False")) ;;
  (if negb (a_yes args) then
     cont <- gets (fun s => os_input (world s)) ;;
     match cont with
     | None => raise EOFError
     | Some cont =>
         let c := str_lower cont in
         if String.eqb c "y" || String.eqb c "yes" then ret tt
         else info "Aborted by user" ;; sys_exit 0
     end
   else ret tt) ;;
  process_all processor ;;
  info "All done".  (* the elapsed time is left out *)

(** The exit status of the interpreter: [SystemExit(n)] exits with [n],
    another uncaught exception with 1, a normal return with 0. *)
Definition exit_status (r : Exc + unit) : Z :=
  match r with
  | inr _ => 0
  | inl (SystemExit n) => n
  | inl _ => 1
  end.

(** ** Vocabulary of the properties *)

(** The [ERun] events of commands run in [cwd] with no extra environment. *)
Definition cmd_events (cwd : string) (l : list (list string)) : list Event :=
  map (fun a => ERun (mkCmd a cwd [])) l.

(** Whether the commands, run one after another from world [w], all exit
    with status 0. *)
Fixpoint seq_ok (w : W) (cwd : string) (cmds : list (list string)) : bool :=
  match cmds with
  | [] => true
  | a :: rest =>
      let (rc, w') := os_run w (mkCmd a cwd []) in
      Z.eqb rc 0 && seq_ok w' cwd rest
  end.

(** The commands of each branch operation. *)
Definition create_cmds (n : string) : list (list string) :=
  [["git"; "checkout"; "-b"; n]; ["git"; "push"; "-u"; "origin"; n]].

Definition rename_cmds (old new : string) : list (list string) :=
  [["git"; "branch"; "-m"; old; new]; ["git"; "push"; "origin"; ":" ++ old];
   ["git"; "push"; "-u"; "origin"; new]].

Definition switch_cmds (n : string) : list (list string) :=
  [["git"; "checkout"; n]].

(** The commands a request asks for: none when the operation is absent. *)
Definition requested_create (ops : BranchOps) : list (list string) :=
  match bo_create ops with
  | Some n => if truthy (Some n) then create_cmds n else []
  | None => []
  end.

Definition requested_rename (ops : BranchOps) : list (list string) :=
  match bo_rename ops with
  | Some (old, new) => rename_cmds old new
  | None => []
  end.

Definition requested_switch (ops : BranchOps) : list (list string) :=
  match bo_switch ops with
  | Some n => if truthy (Some n) then switch_cmds n else []
  | None => []
  end.

(** The two probes of [_has_commits]. *)
Definition has_commits_cmds : list (list string) :=
  [["git"; "rev-parse"; "--is-inside-work-tree"]; ["git"; "rev-parse"; "HEAD"]].

(** The [git config] commands of step 2: [user.name], then [user.email],
    each only when its value is truthy. *)
Definition config_cmds (pr : Processor) : list (list string) :=
  ((match git_name pr with
    | Some v => if truthy (Some v) then [["git"; "config"; "user.name"; v]] else []
    | None => []
    end) ++
   (match git_email pr with
    | Some v => if truthy (Some v) then [["git"; "config"; "user.email"; v]] else []
    | None => []
    end))%list.

(** The line [report_summary] prints for one summary entry. *)
Definition entry_line (o : string * bool * string) : Log :=
  let '(name, _, msg) := o in LInfo ("  - " ++ name ++ ": " ++ msg).

(** The default branch a new repository ends up with. *)
Definition created_default_branch (h : Hub) (b : string) : string :=
  if negb (String.eqb b "") && negb (String.eqb b "main") && hub_edit_ok h then b else "main".

(** A file was written. *)
Definition is_write (e : Event) : bool :=
  match e with EWrite _ _ => true | ERun _ => false end.

(** The three conditions under which [main] stops before processing:
    the parent is not a directory, no token is obtained (from the option,
    the environment variable or the prompt), and the GitHub client cannot
    be made (PyGithub missing or the token refused). *)
Definition token_of (args : Args) (w : W) : option string :=
  if truthy (a_token args) then a_token args
  else if truthy (a_token_from_env args) then
    os_getenv w (match a_token_from_env args with Some v => v | None => "" end)
  else if negb (a_yes args) then os_getpass w
  else None.

Definition auth_ok (h : Hub) (tok : string) : bool := os_pygithub && hub_accepts h tok.

Definition fatal_config (args : Args) (w : W) (h : Hub) : bool :=
  negb (os_is_dir w (os_resolve w (a_parent args))) ||
  negb (truthy (token_of args w)) ||
  negb (auth_ok h (match token_of args w with Some t => t | None => "" end)).

(** The run is confirmed: [--yes], or an answer [y] or [yes]. *)
Definition confirmed (args : Args) (w : W) : bool :=
  a_yes args ||
  match os_input w with
  | Some a => let c := str_lower a in String.eqb c "y" || String.eqb c "yes"
  | None => false
  end.

(** The confirmation prompt is reached and [input] meets the end of
    input. *)
Definition input_eof (args : Args) (w : W) : bool :=
  negb (a_yes args) && match os_input w with None => true | Some _ => false end.

End Program.

(** ** A concrete operating system, for running the model *)

Module Sim.

Fixpoint list_eqb (l1 l2 : list string) : bool :=
  match l1, l2 with
  | [], [] => true
  | a :: r1, b :: r2 => String.eqb a b && list_eqb r1 r2
  | _, _ => false
  end.

(** A directory tree as its entries [(parent, name, is_dir)], the
    commands (by working directory and arguments) that exit with status 1,
    the environment and the answers typed at the prompts. *)
Record World := mkWorld {
  entries : list (string * string * bool);
  failing : list (string * list string);
  env : list (string * string);
  typed_token : option string;   (* [None]: end of input *)
  typed_answer : option string
}.

Definition has_path (w : World) (p : string) : bool :=
  existsb (fun e => String.eqb (path_join (fst (fst e)) (snd (fst e))) p) (entries w).

Definition add_entry (dir name : string) (isdir : bool) (w : World) : World :=
  mkWorld (entries w ++ [(dir, name, isdir)])%list (failing w) (env w) (typed_token w) (typed_answer w).

(** [dir/name] split at the last ['/']. *)
Fixpoint split_last (s : string) : option (string * string) :=
  match s with
  | EmptyString => None
  | String c r =>
      match split_last r with
      | Some (a, b) => Some (String c a, b)
      | None => if Ascii.eqb c "/"%char then Some (EmptyString, r) else None
      end
  end.

(** [git init] creates [.git]; the listed commands fail; all others
    succeed without changing the tree. *)
Definition run (w : World) (c : Cmd) : Z * World :=
  if existsb (fun f => String.eqb (fst f) (c_cwd c) && list_eqb (snd f) (c_args c)) (failing w)
  then (1%Z, w)
  else if list_eqb (c_args c) ["git"; "init"] && negb (has_path w (path_join (c_cwd c) ".git"))
  then (0%Z, add_entry (c_cwd c) ".git" true w)
  else (0%Z, w).

Definition write (w : World) (p _text : string) : World :=
  if has_path w p then w
  else match split_last p with
       | Some (d, n) => add_entry d n false w
       | None => w
       end.

Definition dq : string := String (Ascii.ascii_of_nat 34) EmptyString.

(** PyGithub 1.x renders a [GithubException] as its status and the
    JSON-encoded body, here with the message alone. *)
#[global] Instance sim_os : OS World := {
  os_run := run;
  os_exists := has_path;
  os_is_dir w p :=
    existsb (fun e => String.eqb (path_join (fst (fst e)) (snd (fst e))) p && snd e) (entries w);
  os_iterdir w p :=
    map (fun e => snd (fst e)) (filter (fun e => String.eqb (fst (fst e)) p) (entries w));
  os_write_text := write;
  os_getenv w v := option_map snd (find (fun kv => String.eqb (fst kv) v) (env w));
  os_getpass := typed_token;
  os_input := typed_answer;
  os_resolve w p := p;
  os_pygithub := true;
  os_gh_error st m := z_str st ++ " " ++ "{" ++ dq ++ "message" ++ dq ++ ": " ++ dq ++ m ++ dq ++ "}"
}.

Definition hub0 : Hub := mkHub "octo" [] (fun t => String.eqb t "ghp_good") false.

Definition st0 (w : World) : St := mkSt w hub0 [] [] [].

(** The parent [/h/p] holds [alpha] (empty), [beta] (a repository with
    one commit and the file [x.txt]), the hidden directory [.cache] and
    the file [notes.txt]; git exits with status 1 where a real git would. *)
Definition demo : World := mkWorld
  [("/h", "p", true); ("/h/p", "beta", true); ("/h/p", "notes.txt", false);
   ("/h/p", ".cache", true); ("/h/p", "alpha", true);
   ("/h/p/beta", "x.txt", false); ("/h/p/beta", ".git", true)]
  [("/h/p/alpha", ["git"; "rev-parse"; "HEAD"]);
   ("/h/p/alpha", ["git"; "commit"; "-m"; "Initial commit"]);
   ("/h/p/alpha", ["git"; "push"; "-u"; "origin"; "main"]);
   ("/h/p/beta", ["git"; "checkout"; "main"])]
  [("GITHUB_TOKEN", "ghp_good")] (Some "ghp_good") (Some "y").

(** An empty parent directory [/e]. *)
Definition empty_parent : World := mkWorld [("", "e", true)] [] [] (Some "ghp_good") (Some "y").

(** [main]'s command line for [/h/p]: the token from [GITHUB_TOKEN]. *)
Definition args_demo : Args :=
  mkArgs "/h/p" None (Some "GITHUB_TOKEN") None None "SSH" false "main" false
    None None None true.

(** The same tree, with standard input at its end. *)
Definition demo_eof : World :=
  mkWorld (entries demo) (failing demo) (env demo) None None.

(** [args_demo] without [--yes]: [main] asks for confirmation. *)
Definition args_prompt : Args :=
  mkArgs "/h/p" None (Some "GITHUB_TOKEN") None None "SSH" false "main" false
    None None None false.

(** [main]'s command line for [/e]: a token, SSH, no prompt. *)
Definition args_empty : Args :=
  mkArgs "/e" (Some "ghp_good") None None None "SSH" false "main" false None None None true.

(** [/w] holds one repository, [gamma], with a commit; nothing fails. *)
Definition ops_world : World := mkWorld
  [("", "w", true); ("/w", "gamma", true); ("/w/gamma", "app.py", false);
   ("/w/gamma", ".git", true)]
  [] [] (Some "ghp_good") (Some "y").

(** [--create-branch dev --switch-branch main]. *)
Definition args_ops : Args :=
  mkArgs "/w" (Some "ghp_good") None None None "SSH" false "main" false
    (Some "dev") None (Some "main") true.

(** The processor [main] builds for [/h/p] with the defaults. *)
Definition pr_demo : Processor :=
  make_processor "/h/p" (Some "octo") (Some "ghp_good") None None "SSH" false "main" false
    no_branch_ops.

(** The same over HTTPS with the token in the URL. *)
Definition pr_https : Processor :=
  make_processor "/h/p" (Some "octo") (Some "ghp_good") None None "https" false "main" true
    no_branch_ops.

Definition pr_empty : Processor :=
  make_processor "/e" (Some "octo") (Some "ghp_good") None None "SSH" false "main" false
    no_branch_ops.

(** [/z/q] is not a repository and [git init] fails there. *)
Definition init_fails : World := mkWorld
  [("", "z", true); ("/z", "q", true); ("/z/q", "a.txt", false)]
  [("/z/q", ["git"; "init"])] [] (Some "ghp_good") (Some "y").

End Sim.

(** * Properties *)

(** ** Name order *)

Module NameOrder.

Definition le (a b : string) : Prop := String.leb a b = true.

Lemma compare_lt_trans (a b c : string) :
  String.compare a b = Lt -> String.compare b c = Lt -> String.compare a c = Lt.
Proof.
  revert b c; induction a as [|x a IH]; intros [|y b] [|z c]; simpl;
    try discriminate; auto.
  unfold Ascii.compare.
  destruct (N.compare (N_of_ascii x) (N_of_ascii y)) eqn:Exy;
  destruct (N.compare (N_of_ascii y) (N_of_ascii z)) eqn:Eyz;
  intros H1 H2; try discriminate.
  - apply N.compare_eq_iff in Exy, Eyz. rewrite Exy, Eyz, N.compare_refl. eauto.
  - apply N.compare_eq_iff in Exy. rewrite Exy, Eyz. reflexivity.
  - apply N.compare_eq_iff in Eyz. rewrite <- Eyz, Exy. reflexivity.
  - rewrite N.compare_lt_iff in Exy, Eyz.
    assert (N.compare (N_of_ascii x) (N_of_ascii z) = Lt) as ->
      by (apply N.compare_lt_iff; lia). reflexivity.
Qed.

Lemma compare_refl (a : string) : String.compare a a = Eq.
Proof.
  induction a as [|x a IH]; simpl; [reflexivity|].
  unfold Ascii.compare. rewrite N.compare_refl. exact IH.
Qed.

Lemma le_trans (a b c : string) : le a b -> le b c -> le a c.
Proof.
  unfold le, String.leb.
  destruct (String.compare a b) eqn:Eab; try discriminate;
  destruct (String.compare b c) eqn:Ebc; try discriminate; intros _ _.
  - apply String.compare_eq_iff in Eab. apply String.compare_eq_iff in Ebc.
    subst. rewrite compare_refl. reflexivity.
  - apply String.compare_eq_iff in Eab. subst. rewrite Ebc. reflexivity.
  - apply String.compare_eq_iff in Ebc. subst. rewrite Eab. reflexivity.
  - rewrite (compare_lt_trans a b c Eab Ebc). reflexivity.
Qed.

Lemma le_total (a b : string) : le a b \/ le b a.
Proof. apply String.leb_total. Qed.

Lemma le_antisym (a b : string) : le a b -> le b a -> a = b.
Proof. apply String.leb_antisym. Qed.

End NameOrder.

Section Sorting.
Import NameOrder.

Lemma insert_name_perm (n : string) (l : list string) :
  Permutation (n :: l) (insert_name n l).
Proof.
  induction l as [|m l IH]; simpl; [auto|].
  destruct (String.leb n m); [auto|].
  eapply perm_trans; [apply perm_swap|]. auto.
Qed.

Lemma sort_names_perm (l : list string) : Permutation l (sort_names l).
Proof.
  induction l as [|n l IH]; simpl; [auto|].
  eapply perm_trans; [apply perm_skip, IH|]. apply insert_name_perm.
Qed.

Lemma insert_name_sorted (n : string) (l : list string) :
  StronglySorted le l -> StronglySorted le (insert_name n l).
Proof.
  induction 1 as [|m l Hs IH Hall]; simpl; [repeat constructor|].
  destruct (String.leb n m) eqn:E.
  - constructor; [constructor; assumption|].
    constructor; [exact E|].
    eapply Forall_impl; [|exact Hall]. intros x Hx. exact (le_trans _ _ _ E Hx).
  - constructor; [exact IH|].
    apply (Permutation_Forall (insert_name_perm n l)). constructor; [|exact Hall].
    destruct (le_total n m) as [Hl|Hl]; [unfold le in Hl; congruence|exact Hl].
Qed.

Lemma sort_names_sorted (l : list string) : StronglySorted le (sort_names l).
Proof. induction l; simpl; [constructor|]. apply insert_name_sorted; assumption. Qed.

(** A list sorted by a total antisymmetric order is determined by its
    elements. *)
Lemma sorted_perm_unique (l1 l2 : list string) :
  StronglySorted le l1 -> StronglySorted le l2 -> Permutation l1 l2 -> l1 = l2.
Proof.
  revert l2; induction l1 as [|a l1 IH]; intros l2 S1 S2 P.
  - symmetry. apply Permutation_nil, P.
  - destruct l2 as [|b l2]; [apply Permutation_sym, Permutation_nil in P; discriminate|].
    apply StronglySorted_inv in S1 as [S1 F1]. apply StronglySorted_inv in S2 as [S2 F2].
    assert (a = b) as <-.
    { assert (In b (a :: l1)) as Hb by (apply (Permutation_in _ (Permutation_sym P)); left; auto).
      assert (In a (b :: l2)) as Ha by (apply (Permutation_in _ P); left; auto).
      destruct Hb as [->|Hb]; [reflexivity|]. destruct Ha as [->|Ha]; [reflexivity|].
      apply le_antisym; [exact (proj1 (Forall_forall _ _) F1 b Hb)
                        |exact (proj1 (Forall_forall _ _) F2 a Ha)]. }
    f_equal. apply IH; auto. eapply Permutation_cons_inv; exact P.
Qed.

Lemma sort_names_perm_eq (l1 l2 : list string) :
  Permutation l1 l2 -> sort_names l1 = sort_names l2.
Proof.
  intros P. apply sorted_perm_unique; try apply sort_names_sorted.
  eapply perm_trans; [apply Permutation_sym, sort_names_perm|].
  eapply perm_trans; [exact P|apply sort_names_perm].
Qed.

End Sorting.

(** ** The directory scan *)

Section Scan.
Context {W : Type} `{OS W}.

Lemma select_subdirs_names (w : W) (parent : string) :
  map p_name (select_subdirs w parent)
  = filter (fun n => os_is_dir w (path_join parent n) && negb (is_hidden n))
           (sort_names (os_iterdir w parent)).
Proof. unfold select_subdirs. rewrite map_map. simpl. apply map_id. Qed.

Lemma filter_sorted (f : string -> bool) (l : list string) :
  StronglySorted NameOrder.le l -> StronglySorted NameOrder.le (filter f l).
Proof.
  induction 1 as [|a l Hs IH Hall]; simpl; [constructor|].
  destruct (f a); [|exact IH]. constructor; [exact IH|].
  apply Forall_forall. intros x Hx. apply filter_In in Hx as [Hx _].
  exact (proj1 (Forall_forall _ _) Hall x Hx).
Qed.

(** C5: a parent that is not a directory makes the scan raise
    [NotADirectoryError]; a directory gives exactly its children that are
    directories and whose names do not start with ['.'], each as
    [parent/name], sorted by name, the same for any order in which the
    operating system lists the same entries; and an empty result makes
    [process_all] log a notice and return normally, with nothing else
    done. *)
Theorem get_subdirectories_contract (parent : string) (s : St) :
  (os_is_dir (world s) parent = false ->
     get_subdirectories parent s
     = (s, inl (NotADirectoryError ("Parent path is not a directory: " ++ parent)))) /\
  (os_is_dir (world s) parent = true ->
     get_subdirectories parent s = (s, inr (select_subdirs (world s) parent))) /\
  (forall n, In n (map p_name (select_subdirs (world s) parent)) <->
     In n (os_iterdir (world s) parent) /\
     os_is_dir (world s) (path_join parent n) = true /\ is_hidden n = false) /\
  Forall (fun pj => p_path pj = path_join parent (p_name pj)) (select_subdirs (world s) parent) /\
  StronglySorted NameOrder.le (map p_name (select_subdirs (world s) parent)) /\
  (forall w' : W,
     Permutation (os_iterdir (world s) parent) (os_iterdir w' parent) ->
     (forall n, os_is_dir w' (path_join parent n) = os_is_dir (world s) (path_join parent n)) ->
     select_subdirs w' parent = select_subdirs (world s) parent) /\
  (forall pr : Processor,
     parent_dir pr = parent -> os_is_dir (world s) parent = true ->
     select_subdirs (world s) parent = [] ->
     process_all pr s = (add_log (LInfo "No subdirectories found under the parent path.") s, inr tt)).
Proof.
  split; [|split; [|split; [|split; [|split; [|split]]]]].
  - intros Hd. unfold get_subdirectories, path_is_dir, gets, bind. rewrite Hd. reflexivity.
  - intros Hd. unfold get_subdirectories, path_is_dir, gets, bind. rewrite Hd. reflexivity.
  - intros n. rewrite select_subdirs_names, filter_In.
    rewrite andb_true_iff, negb_true_iff.
    pose proof (sort_names_perm (os_iterdir (world s) parent)) as P.
    split; intros [Hi Hf]; split; try exact Hf.
    + exact (Permutation_in _ (Permutation_sym P) Hi).
    + exact (Permutation_in _ P Hi).
  - unfold select_subdirs. apply Forall_map, Forall_forall. intros; reflexivity.
  - rewrite select_subdirs_names. apply filter_sorted, sort_names_sorted.
  - intros w' Hp Hd. unfold select_subdirs.
    rewrite (sort_names_perm_eq _ _ Hp). f_equal.
    apply filter_ext. intros n. rewrite Hd. reflexivity.
  - intros pr <- Hd He. unfold process_all, get_subdirectories, path_is_dir, gets, bind.
    rewrite Hd. simpl. rewrite He. reflexivity.
Qed.

End Scan.

(** ** Which exceptions escape, and what a computation leaves alone *)

Create HintDb safe discriminated.

Section Safety.
Context {W : Type} `{OS W}.

(** [R] relates a state to the states the program can move it to. *)
Variable R : @St W -> @St W -> Prop.
Hypothesis R_refl : forall s, R s s.
Hypothesis R_trans : forall a b c, R a b -> R b c -> R a c.
Hypothesis R_log : forall s l, R s (add_log l s).
Hypothesis R_event : forall s e w, R s (add_event e (set_world w s)).
Hypothesis R_hub : forall s h, R s (set_hub h s).

(** [m] moves the state along [R] and raises nothing but subclasses of
    [Exception]. *)
Definition Safe {A} (m : M A) : Prop :=
  forall s, R s (fst (m s)) /\ (forall e, snd (m s) = inl e -> is_Exception e = true).

Lemma Safe_ret {A} (a : A) : Safe (ret a).
Proof. intros s; split; [apply R_refl | discriminate]. Qed.

Lemma Safe_raise {A} (e : Exc) : is_Exception e = true -> Safe (raise (A:=A) e).
Proof. intros He s; split; [apply R_refl | simpl; congruence]. Qed.

Lemma Safe_bind {A B} (m : M A) (k : A -> M B) :
  Safe m -> (forall a, Safe (k a)) -> Safe (bind m k).
Proof.
  intros Hm Hk s. unfold bind. destruct (Hm s) as [R1 E1].
  destruct (m s) as [s1 [e|a]]; simpl in *.
  - split; [exact R1|]. intros e' He'; inversion He'; subst; apply E1; reflexivity.
  - destruct (Hk a s1) as [R2 E2]. split; [eapply R_trans; eauto|exact E2].
Qed.

Lemma Safe_try {A} (c : Exc -> bool) (m : M A) (h : Exc -> M A) :
  Safe m -> (forall e, Safe (h e)) -> Safe (try_except c m h).
Proof.
  intros Hm Hh s. unfold try_except. destruct (Hm s) as [R1 E1].
  destruct (m s) as [s1 [e|a]] eqn:Em; simpl in *.
  - destruct (c e).
    + destruct (Hh e s1) as [R2 E2]. split; [eapply R_trans; eauto|exact E2].
    + split; [exact R1|]. intros e' He'; inversion He'; subst; apply E1; reflexivity.
  - split; [exact R1|discriminate].
Qed.

Lemma Safe_gets {A} (f : St -> A) : Safe (gets f).
Proof. intros s; split; [apply R_refl|discriminate]. Qed.

Lemma Safe_info m : Safe (info m).
Proof. intros s; split; [apply R_log|discriminate]. Qed.
Lemma Safe_warning m : Safe (warning m).
Proof. intros s; split; [apply R_log|discriminate]. Qed.
Lemma Safe_error m : Safe (error m).
Proof. intros s; split; [apply R_log|discriminate]. Qed.

Lemma Safe_run_git_cmd args cwd check cap env : Safe (run_git_cmd args cwd check cap env).
Proof.
  intros s. unfold run_git_cmd. destruct (os_run (world s) _) as [rc w'].
  destruct (check && negb (rc =? 0)%Z); simpl; (split; [apply R_event|]);
    intros e He; inversion He; reflexivity.
Qed.

Lemma Safe_path_exists p : Safe (path_exists p).
Proof. apply Safe_gets. Qed.
Lemma Safe_path_is_dir p : Safe (path_is_dir p).
Proof. apply Safe_gets. Qed.
Lemma Safe_path_iterdir p : Safe (path_iterdir p).
Proof. apply Safe_gets. Qed.
Lemma Safe_write_text p t : Safe (write_text p t).
Proof. intros s; split; [apply R_event|discriminate]. Qed.
Lemma Safe_modify_hub h : Safe (modify (set_hub h)).
Proof. intros s; split; [apply R_hub|discriminate]. Qed.

#[local] Hint Resolve Safe_ret Safe_gets Safe_info Safe_warning Safe_error
  Safe_run_git_cmd Safe_path_exists Safe_path_is_dir Safe_path_iterdir
  Safe_write_text Safe_modify_hub : safe.

Ltac safe :=
  repeat match goal with
  | |- Safe (bind _ _) => apply Safe_bind; [|intro]
  | |- Safe (try_except _ _ _) => apply Safe_try; [|intro]
  | |- Safe (raise _) => apply Safe_raise; reflexivity
  | |- Safe (if ?b then _ else _) => destruct b
  | |- Safe (match ?x with _ => _ end) => destruct x
  | |- Safe _ => solve [eauto with safe]
  end.

Lemma Safe_gh_get_repo n : Safe (gh_get_repo n).
Proof. unfold gh_get_repo. safe. Qed.
Lemma Safe_gh_create_repo n p d a : Safe (gh_create_repo n p d a).
Proof. unfold gh_create_repo. safe. Qed.
Lemma Safe_gh_edit r b : Safe (gh_edit_default_branch r b).
Proof. unfold gh_edit_default_branch. safe. Qed.
#[local] Hint Resolve Safe_gh_get_repo Safe_gh_create_repo Safe_gh_edit : safe.

Lemma Safe_create_repo n p d a b : Safe (create_repo n p d a b).
Proof. unfold create_repo. safe. Qed.
Lemma Safe_has_commits cwd : Safe (has_commits cwd).
Proof. unfold has_commits. safe. Qed.
#[local] Hint Resolve Safe_create_repo Safe_has_commits : safe.

Lemma Safe_when_truthy o (f : string -> M unit) :
  (forall v, Safe (f v)) -> Safe (when_truthy o f).
Proof. intros Hf. unfold when_truthy. safe. Qed.

Lemma Safe_process_project_steps pr p : Safe (process_project_steps pr p).
Proof.
  unfold process_project_steps, step_git_init, step_git_config, step_initial_commit,
    ensure_placeholder, initial_commit_block, switch_block, step_remote, step_push,
    do_branch_operations, branch_create_block, branch_rename_block, branch_switch_block.
  safe; apply Safe_when_truthy; intro; safe.
Qed.

Lemma Safe_log_entries l : Safe (log_entries l).
Proof. induction l as [|[[n b] m] l IH]; simpl; safe. Qed.
#[local] Hint Resolve Safe_log_entries : safe.

Lemma Safe_report_summary : Safe report_summary.
Proof. unfold report_summary. safe. Qed.
#[local] Hint Resolve Safe_report_summary Safe_process_project_steps : safe.

Section WithOutcome.
Hypothesis R_outcome : forall s o, R s (add_outcome o s).

Lemma Safe_modify_outcome o : Safe (modify (add_outcome o)).
Proof. intros s; split; [apply R_outcome|discriminate]. Qed.
#[local] Hint Resolve Safe_modify_outcome : safe.

Lemma Safe_process_project pr p : Safe (process_project pr p).
Proof. unfold process_project. safe. Qed.
#[local] Hint Resolve Safe_process_project : safe.

Lemma Safe_process_loop pr ps : Safe (process_loop pr ps).
Proof. induction ps; simpl; safe. Qed.
#[local] Hint Resolve Safe_process_loop : safe.

Lemma Safe_process_all pr : Safe (process_all pr).
Proof. unfold process_all, get_subdirectories. safe. Qed.

End WithOutcome.

End Safety.

(** ** The per-project outcomes *)

Section Outcomes.
Context {W : Type} `{OS W}.

Lemma process_project_steps_safe (pr : Processor) (p : Project) (s : @St W) :
  summary (fst (process_project_steps pr p s)) = summary s /\
  (forall e, snd (process_project_steps pr p s) = inl e -> is_Exception e = true).
Proof.
  apply (Safe_process_project_steps (fun a b => summary b = summary a));
    intros; simpl; congruence.
Qed.

(** One project either appends its success entry and returns, or raises
    an [Exception] with the summary untouched. *)
Lemma process_project_outcome (pr : Processor) (p : Project) (s : @St W) :
  match process_project pr p s with
  | (s', inr _) => summary s' = (summary s ++ [(p_name p, true, "OK")])%list
  | (s', inl e) => is_Exception e = true /\ summary s' = summary s
  end.
Proof.
  destruct (process_project_steps_safe pr p s) as [Hs He].
  unfold process_project, bind at 1.
  destruct (process_project_steps pr p s) as [s1 [e|u]]; simpl in *.
  - split; [apply He; reflexivity|exact Hs].
  - rewrite Hs. reflexivity.
Qed.

(** The relation between the scanned projects and the summary entries. *)
Definition outcome_of (p : Project) (o : string * bool * string) : Prop :=
  o = (p_name p, true, "OK") \/ exists reason, o = (p_name p, false, reason).

Lemma process_loop_cons (pr : Processor) (p : Project) (ps : list Project) (s : @St W) :
  process_loop pr (p :: ps) s =
  match process_project pr p s with
  | (s1, inl e) =>
      if is_Exception e
      then process_loop pr ps
             (add_outcome (p_name p, false, exc_str e)
               (add_log (LError ("Failed processing " ++ p_name p ++ ": " ++ exc_str e)) s1))
      else (s1, inl e)
  | (s1, inr _) => process_loop pr ps s1
  end.
Proof.
  simpl. unfold bind at 1, try_except.
  destruct (process_project pr p s) as [s1 [e|u]]; [destruct (is_Exception e)|]; reflexivity.
Qed.

Lemma process_loop_summary (pr : Processor) (ps : list Project) (s : @St W) :
  snd (process_loop pr ps s) = inr tt /\
  exists outs, summary (fst (process_loop pr ps s)) = (summary s ++ outs)%list /\
               Forall2 outcome_of ps outs.
Proof.
  revert s; induction ps as [|p ps IH]; intros s.
  - split; [reflexivity|]. exists []. rewrite app_nil_r. split; [reflexivity|constructor].
  - rewrite process_loop_cons. pose proof (process_project_outcome pr p s) as Hp.
    destruct (process_project pr p s) as [s1 [e|u]].
    + destruct Hp as [Hex Hs1]. rewrite Hex.
      match goal with |- context [process_loop pr ps ?s2] =>
        destruct (IH s2) as [Hr [outs [Ho Hf]]] end.
      split; [exact Hr|]. exists ((p_name p, false, exc_str e) :: outs).
      rewrite Ho. simpl. rewrite Hs1, <- app_assoc. split; [reflexivity|].
      constructor; [right; eexists; reflexivity|exact Hf].
    + destruct (IH s1) as [Hr [outs [Ho Hf]]]. split; [exact Hr|].
      exists ((p_name p, true, "OK") :: outs). rewrite Ho, Hp, <- app_assoc.
      split; [reflexivity|]. constructor; [left; reflexivity|exact Hf].
Qed.

Lemma bind_eq {A B} (m : @M W A) (k : A -> @M W B) s s' a :
  m s = (s', inr a) -> bind m k s = k a s'.
Proof. intros E. unfold bind. rewrite E. reflexivity. Qed.

(** Computations that never raise. *)
Definition Total {A} (m : @M W A) : Prop := forall s, exists s' a, m s = (s', inr a).

Lemma Total_ret {A} (a : A) : Total (ret a).
Proof. intros s; exists s, a; reflexivity. Qed.
Lemma Total_gets {A} (f : @St W -> A) : Total (gets f).
Proof. intros s; exists s, (f s); reflexivity. Qed.
Lemma Total_info m : Total (@info W m).
Proof. intros s; exists (add_log (LInfo m) s), tt; reflexivity. Qed.
Lemma Total_bind {A B} (m : @M W A) (k : A -> @M W B) :
  Total m -> (forall a, Total (k a)) -> Total (bind m k).
Proof.
  intros Hm Hk s. destruct (Hm s) as [s1 [a E]]. unfold bind. rewrite E. apply Hk.
Qed.

Lemma Total_log_entries l : Total (@log_entries W l).
Proof.
  induction l as [|[[n b] m] l IH]; simpl;
    [apply Total_ret|apply Total_bind; [apply Total_info|intros; exact IH]].
Qed.

Lemma Total_report_summary : Total (@report_summary W).
Proof.
  unfold report_summary.
  repeat first [apply Total_bind; [|intro] | apply Total_gets | apply Total_info
               | apply Total_log_entries].
Qed.

Lemma report_summary_summary (s : @St W) :
  summary (fst (report_summary s)) = summary s /\ snd (report_summary s) = inr tt.
Proof.
  assert (HS : Safe (fun a b => summary b = summary a) (@report_summary W))
    by (apply Safe_report_summary; intros; simpl; congruence).
  destruct (HS s) as [Hs _].
  split; [exact Hs|]. destruct (Total_report_summary s) as [s' [[] E]].
  rewrite E. reflexivity.
Qed.

(** C1: inside [process_all] every project runs inside [try ... except
    Exception]: the loop over any list of projects returns normally; a
    project that raises gets the entry [(name, False, str(e))] and the loop
    goes on with the next project from the state the failure left; and
    [process_all] on a directory returns normally. *)
Theorem process_all_isolates_project_errors (pr : Processor) (p : Project)
    (ps : list Project) (s : @St W) :
  (forall qs (s' : @St W), snd (process_loop pr qs s') = inr tt) /\
  match process_project pr p s with
  | (s1, inl e) =>
      is_Exception e = true /\
      process_loop pr (p :: ps) s =
      process_loop pr ps
        (add_outcome (p_name p, false, exc_str e)
          (add_log (LError ("Failed processing " ++ p_name p ++ ": " ++ exc_str e)) s1))
  | (s1, inr _) => process_loop pr (p :: ps) s = process_loop pr ps s1
  end /\
  (os_is_dir (world s) (parent_dir pr) = true -> snd (process_all pr s) = inr tt).
Proof.
  split; [|split].
  - intros qs s'. apply process_loop_summary.
  - rewrite process_loop_cons. pose proof (process_project_outcome pr p s) as Hp.
    destruct (process_project pr p s) as [s1 [e|u]]; [|reflexivity].
    destruct Hp as [Hex _]. rewrite Hex. split; reflexivity.
  - intros Hd. unfold process_all.
    erewrite bind_eq;
      [|unfold get_subdirectories, path_is_dir, gets, bind; rewrite Hd; reflexivity].
    destruct (select_subdirs (world s) (parent_dir pr)) as [|q qs]; [reflexivity|].
    erewrite bind_eq; [|reflexivity]. cbv beta.
    match goal with |- context [bind (process_loop pr (q :: qs)) _ ?s1] =>
      destruct (process_loop_summary pr (q :: qs) s1) as [Hr _];
      destruct (process_loop pr (q :: qs) s1) as [s2 r2] eqn:E end.
    simpl in Hr. subst r2. erewrite bind_eq; [|exact E].
      apply report_summary_summary.
Qed.

(** C10: a fresh processor's summary, after [process_all] on a
    directory, has one entry per scanned project, in scan order, each
    [(name, True, "OK")] or [(name, False, reason)]. *)
Theorem process_all_one_entry_per_project (pr : Processor) (s : @St W) :
  os_is_dir (world s) (parent_dir pr) = true -> summary s = [] ->
  Forall2 outcome_of (select_subdirs (world s) (parent_dir pr))
          (summary (fst (process_all pr s))).
Proof.
  intros Hd Hs. unfold process_all.
  erewrite bind_eq;
    [|unfold get_subdirectories, path_is_dir, gets, bind; rewrite Hd; reflexivity].
  destruct (select_subdirs (world s) (parent_dir pr)) as [|q qs]; [simpl; rewrite Hs; constructor|].
  erewrite bind_eq; [|reflexivity]. cbv beta.
  match goal with |- context [bind (process_loop pr (q :: qs)) _ ?s1] =>
    destruct (process_loop_summary pr (q :: qs) s1) as [Hr [outs [Ho Hf]]];
    destruct (process_loop pr (q :: qs) s1) as [s2 r2] eqn:E end.
  simpl in Hr, Ho. subst r2. erewrite bind_eq; [|exact E].
  rewrite (proj1 (report_summary_summary s2)), Ho, Hs. exact Hf.
Qed.

End Outcomes.

(** ** Where the token goes *)

Section Token.
Context {W : Type} `{OS W}.

Lemma bind_ext {A B} (m1 m2 : @M W A) (k1 k2 : A -> @M W B) :
  (forall s, m1 s = m2 s) -> (forall a s, k1 a s = k2 a s) ->
  forall s, bind m1 k1 s = bind m2 k2 s.
Proof.
  intros Hm Hk s. unfold bind. rewrite Hm.
  destruct (m2 s) as [s' [e|a]]; [reflexivity|apply Hk].
Qed.

Lemma try_except_ext {A} c (m1 m2 : @M W A) (h1 h2 : Exc -> @M W A) :
  (forall s, m1 s = m2 s) -> (forall e s, h1 e s = h2 e s) ->
  forall s, try_except c m1 h1 s = try_except c m2 h2 s.
Proof.
  intros Hm Hh s. unfold try_except. rewrite Hm.
  destruct (m2 s) as [s' [e|a]]; [destruct (c e); [apply Hh|]|]; reflexivity.
Qed.

Lemma remote_url_for_token (pr : Processor) (t1 t2 : option string) (r : Repo) :
  protocol pr = "SSH" \/ push_via_token_in_https pr = false ->
  remote_url_for (set_token t1 pr) r = remote_url_for (set_token t2 pr) r.
Proof.
  intros Hc. unfold remote_url_for, set_token; simpl.
  assert (Hf : String.eqb (protocol pr) "HTTPS" && push_via_token_in_https pr = false)
    by (destruct Hc as [-> | ->]; [reflexivity|apply andb_false_r]).
  destruct t1, t2; simpl; rewrite ?Hf; reflexivity.
Qed.

Lemma step_remote_token (pr : Processor) (t1 t2 : option string) n cwd b (s : @St W) :
  protocol pr = "SSH" \/ push_via_token_in_https pr = false ->
  step_remote (set_token t1 pr) n cwd b s = step_remote (set_token t2 pr) n cwd b s.
Proof.
  intros Hc. unfold step_remote. simpl. destruct (github_manager pr); [|reflexivity].
  apply bind_ext; [reflexivity|]. intros repo s'.
  rewrite (remote_url_for_token pr t1 t2 repo Hc). reflexivity.
Qed.

Lemma process_project_token (pr : Processor) (t1 t2 : option string) p (s : @St W) :
  protocol pr = "SSH" \/ push_via_token_in_https pr = false ->
  process_project (set_token t1 pr) p s = process_project (set_token t2 pr) p s.
Proof.
  intros Hc. unfold process_project, process_project_steps.
  repeat (apply bind_ext; [|intros ? ?]); intros; try reflexivity.
  apply step_remote_token; exact Hc.
Qed.

Lemma process_loop_token (pr : Processor) (t1 t2 : option string) ps (s : @St W) :
  protocol pr = "SSH" \/ push_via_token_in_https pr = false ->
  process_loop (set_token t1 pr) ps s = process_loop (set_token t2 pr) ps s.
Proof.
  intros Hc. revert s; induction ps as [|p ps IH]; intros s; simpl; [reflexivity|].
  apply bind_ext; [|intros; apply IH].
  apply try_except_ext; [|intros; reflexivity].
  intros; apply process_project_token; exact Hc.
Qed.

(** C9: with the SSH protocol, or without [--embed-token-in-https], two
    runs of the processor that differ only in the token choose the same
    remote URLs and do exactly the same things: the same commands with the
    same arguments (the [origin] URL among them), the same files, logs and
    summary. *)
Theorem token_only_in_https_embedding (pr : Processor) (t1 t2 : option string)
    (s : @St W) :
  protocol pr = "SSH" \/ push_via_token_in_https pr = false ->
  (forall r, remote_url_for (set_token t1 pr) r = remote_url_for (set_token t2 pr) r) /\
  process_all (set_token t1 pr) s = process_all (set_token t2 pr) s.
Proof.
  intros Hc. split; [intros r; apply remote_url_for_token; exact Hc|].
  unfold process_all. apply bind_ext; [reflexivity|]. intros projects s'.
  destruct projects as [|q qs]; [reflexivity|].
  apply bind_ext; [reflexivity|]. intros _ s''.
  apply bind_ext; [|reflexivity]. intros; apply process_loop_token; exact Hc.
Qed.

End Token.

(** ** The remote URL *)

Module Url.

Lemma prefix_https_colon (s : string) :
  String.prefix "https://" s = true -> has_char ":" s = true.
Proof.
  destruct s as [|a1 [|a2 [|a3 [|a4 [|a5 [|a6 s]]]]]]; cbn -[ascii_dec];
    repeat match goal with |- context [ascii_dec ?x ?y] => destruct (ascii_dec x y); [subst|] end;
    try discriminate; reflexivity.
Qed.

Lemma replace_fuel_no_colon (f : nat) (new rest : string) :
  has_char ":" rest = false -> replace_fuel f "https://" new rest = rest.
Proof.
  revert rest; induction f as [|f IH]; intros rest Hc; [reflexivity|].
  destruct rest as [|c r]; [reflexivity|].
  change (replace_fuel (S f) "https://" new (String c r)) with
    (if String.prefix "https://" (String c r)
     then new ++ replace_fuel f "https://" new
                   (substring (String.length "https://")
                              (String.length (String c r) - String.length "https://") (String c r))
     else String c (replace_fuel f "https://" new r)).
  destruct (String.prefix "https://" (String c r)) eqn:Ep.
  - apply prefix_https_colon in Ep. congruence.
  - simpl in Hc. apply orb_false_iff in Hc as [_ Hr]. rewrite IH by exact Hr. reflexivity.
Qed.

Lemma str_app_assoc (a b c : string) : (a ++ b) ++ c = a ++ b ++ c.
Proof. induction a as [|x a IH]; simpl; [reflexivity|]. rewrite IH. reflexivity. Qed.

Lemma substring_all (s : string) : substring 0 (String.length s) s = s.
Proof. induction s as [|c s IH]; simpl; [reflexivity|]. rewrite IH. reflexivity. Qed.

Lemma replace_fuel_prefix (f : nat) (old new : string) (c : ascii) (r : string) :
  String.prefix old (String c r) = true ->
  replace_fuel (S f) old new (String c r)
  = new ++ replace_fuel f old new
              (substring (String.length old) (String.length (String c r) - String.length old)
                         (String c r)).
Proof. intros Hp. unfold replace_fuel at 1. rewrite Hp. reflexivity. Qed.

(** Replacing the scheme of an [https://] URL without a second colon. *)
Lemma str_replace_https (rest new : string) :
  has_char ":" rest = false ->
  str_replace ("https://" ++ rest) "https://" new = new ++ rest.
Proof.
  intros Hc. unfold str_replace.
  replace (String.eqb "https://" "") with false by reflexivity.
  replace (String.length ("https://" ++ rest)) with (S (7 + String.length rest))
    by reflexivity.
  change ("https://" ++ rest) with (String "h" ("ttps://" ++ rest)).
  rewrite replace_fuel_prefix by (destruct rest; reflexivity).
  replace (String.length (String "h" ("ttps://" ++ rest)) - String.length "https://")
    with (String.length rest) by (simpl; lia).
  replace (substring (String.length "https://") (String.length rest)
             (String "h" ("ttps://" ++ rest))) with rest
    by (transitivity (substring 0 (String.length rest) rest);
        [symmetry; apply substring_all|reflexivity]).
  rewrite replace_fuel_no_colon by exact Hc. reflexivity.
Qed.

End Url.

Section Remote.
Context {W : Type} `{OS W}.

(** C7: the [origin] URL is the SSH URL of the handle under [SSH] and its
    HTTPS clone URL under [HTTPS]; with [--embed-token-in-https] and a
    non-empty token, an [https://host/...] clone URL becomes
    [https://TOKEN@host/...]; and [step_remote] removes the old [origin]
    and then adds that URL, right after [create_repo] returned the handle. *)
Theorem remote_url_follows_protocol (pr : Processor) (r : Repo) :
  (protocol pr = "SSH" -> remote_url_for pr r = ssh_url r) /\
  (protocol pr = "HTTPS" ->
     push_via_token_in_https pr = false \/ truthy (token pr) = false ->
     remote_url_for pr r = clone_url r) /\
  (forall t rest,
     protocol pr = "HTTPS" -> push_via_token_in_https pr = true ->
     token pr = Some t -> t <> "" ->
     clone_url r = "https://" ++ rest -> has_char ":" rest = false ->
     remote_url_for pr r = "https://" ++ t ++ "@" ++ rest) /\
  (forall name cwd b (s s1 : @St W) g,
     github_manager pr = Some g ->
     create_repo name (private pr) "" false (Some b) s = (s1, inr r) ->
     trace (fst (step_remote pr name cwd b s)) =
     (trace s1 ++ [ERun (mkCmd ["git"; "remote"; "remove"; "origin"] cwd []);
                   ERun (mkCmd ["git"; "remote"; "add"; "origin"; remote_url_for pr r] cwd [])])%list).
Proof.
  split; [|split; [|split]].
  - intros Hp. unfold remote_url_for. rewrite Hp. simpl.
    destruct (token pr); reflexivity.
  - intros Hp Hc. unfold remote_url_for. rewrite Hp. simpl.
    destruct (token pr) as [t|]; [|reflexivity].
    destruct Hc as [-> | ->]; [reflexivity|]. rewrite andb_false_r. reflexivity.
  - intros t rest Hp Hv Ht Hne Hu Hc.
    assert (Htr : truthy (token pr) = true)
      by (rewrite Ht; unfold truthy; apply negb_true_iff, String.eqb_neq, Hne).
    unfold remote_url_for. rewrite Hp, Hv, Htr, Ht.
    change (String.eqb "HTTPS" "SSH") with false.
    change (String.eqb "HTTPS" "HTTPS") with true.
    cbv beta iota zeta delta [andb].
    rewrite Hu, Url.str_replace_https by exact Hc.
    rewrite !Url.str_app_assoc. reflexivity.
  - intros name cwd b s s1 g Hg Hcr. unfold step_remote. rewrite Hg.
    unfold bind at 1. rewrite Hcr. cbv beta.
    unfold bind, try_except, run_git_cmd. simpl.
    destruct (os_run (world s1) _) as [rc1 w1]. simpl.
    destruct (os_run w1 _) as [rc2 w2]. simpl.
    destruct (negb (rc2 =? 0)%Z); simpl; rewrite <- app_assoc; reflexivity.
Qed.

End Remote.

(** ** [GitHubManager.create_repo] *)

Section CreateRepo.
Context {W : Type} `{OS W}.

Lemma map_rename_absent (name : string) (r' : Repo) (l : list Repo) :
  find_repo name l = None ->
  map (fun x => if String.eqb (repo_name x) name then r' else x) l = l.
Proof.
  induction l as [|x l IH]; simpl; [reflexivity|].
  destruct (String.eqb (repo_name x) name) eqn:E; [discriminate|].
  intros Hf. rewrite IH by exact Hf. reflexivity.
Qed.

(** C4: an existing repository of that name is returned as it is, with
    the account untouched (only a log line is added); otherwise one
    repository is added with the requested name and visibility, an empty
    description, [auto_init = False] as [process_project] asks, the URLs
    GitHub gives it, and the requested default branch if the API accepted
    the edit. *)
Theorem create_repo_idempotent (name : string) (priv : bool) (b : string) (s : @St W) :
  (forall r, find_repo name (hub_repos (hub s)) = Some r ->
     create_repo name priv "" false (Some b) s
     = (add_log (LInfo ("Repo already exists on GitHub: " ++ name)) s, inr r)) /\
  (find_repo name (hub_repos (hub s)) = None ->
     let h := hub s in
     let r' := mkRepo name priv "" false (created_default_branch h b)
                      (gh_ssh_url (hub_login h) name) (gh_clone_url (hub_login h) name) in
     snd (create_repo name priv "" false (Some b) s) = inr r' /\
     hub (fst (create_repo name priv "" false (Some b) s))
     = mkHub (hub_login h) (hub_repos h ++ [r'])%list (hub_accepts h) (hub_edit_ok h)).
Proof.
  split.
  - intros r Hf. cbv [create_repo gh_get_repo gets try_except bind ret info modify raise].
    rewrite Hf. reflexivity.
  - intros Hf h r'. subst h r'.
    destruct s as [w [login repos acc ok] tr lg sm]; simpl in *.
    cbv [create_repo gh_get_repo gh_create_repo gh_edit_default_branch gets try_except
         bind ret info modify raise set_hub add_log hub world trace logs summary
         hub_repos hub_login hub_accepts hub_edit_ok is_Exception fst snd].
    rewrite Hf.
    unfold created_default_branch, truthy. simpl.
    destruct (String.eqb b "") eqn:Eb; simpl; try rewrite Hf; simpl.
    + split; reflexivity.
    + destruct (String.eqb b "main") eqn:Em; simpl.
      * apply String.eqb_eq in Em. subst b. split; reflexivity.
      * destruct ok; simpl; [|split; reflexivity].
        rewrite map_app, map_rename_absent by exact Hf. simpl.
        rewrite String.eqb_refl. split; reflexivity.
Qed.

End CreateRepo.

(** ** Sequences of git commands *)

Section Commands.
Context {W : Type} `{OS W}.

(** [m] runs, in [cwd] and with [check=True], the commands [cmds] one after
    another, stopping after the first that fails with [CalledProcessError];
    it returns exactly when they all exit with 0, and besides only logs. *)
Definition RunsPrefix (cwd : string) (cmds : list (list string)) (m : @M W unit) : Prop :=
  forall s, exists k,
    trace (fst (m s)) = (trace s ++ cmd_events cwd (firstn k cmds))%list /\
    (cmds <> [] -> 0 < k) /\
    summary (fst (m s)) = summary s /\ hub (fst (m s)) = hub s /\
    (snd (m s) = inr tt <-> seq_ok (world s) cwd cmds = true) /\
    (snd (m s) <> inr tt -> logs (fst (m s)) = logs s) /\
    (forall e, snd (m s) = inl e -> is_CalledProcessError e = true).

Lemma RunsPrefix_info cwd m : RunsPrefix cwd [] (info m).
Proof.
  intros s. exists 0. simpl. rewrite app_nil_r.
  repeat split; intros; try reflexivity; congruence.
Qed.

Lemma RunsPrefix_ret cwd : RunsPrefix cwd [] (ret tt).
Proof.
  intros s. exists 0. simpl. rewrite app_nil_r.
  repeat split; intros; try reflexivity; congruence.
Qed.

Lemma RunsPrefix_cons cwd a cmds (m : @M W unit) :
  RunsPrefix cwd cmds m ->
  RunsPrefix cwd (a :: cmds) (bind (run_git_cmd a cwd true false []) (fun _ => m)).
Proof.
  intros Hm s. unfold bind, run_git_cmd. simpl seq_ok.
  destruct (os_run (world s) (mkCmd a cwd [])) as [rc w'] eqn:Er. simpl.
  destruct (rc =? 0)%Z eqn:Ec; simpl.
  - destruct (Hm (add_event (ERun (mkCmd a cwd [])) (set_world w' s)))
      as [k [Ht [Hk [Hs [Hh [Hr [Hl He]]]]]]].
    exists (S k). simpl in *. rewrite Ht, <- app_assoc.
    repeat split; auto; try lia; try (apply Hr; assumption).
  - exists 1. simpl. repeat split; try reflexivity; try discriminate;
      try (intros; lia).
    intros e He; inversion He; reflexivity.
Qed.

(** A command block inside [try ... except CalledProcessError] whose
    handler only logs a warning: it never raises, and it logs the warning
    exactly when one of its commands fails. *)
Lemma RunsPrefix_try cwd cmds (m : @M W unit) w (s : @St W) :
  RunsPrefix cwd cmds m ->
  exists k,
    trace (fst (try_except is_CalledProcessError m (fun _ => warning w) s))
      = (trace s ++ cmd_events cwd (firstn k cmds))%list /\
    (cmds <> [] -> 0 < k) /\
    summary (fst (try_except is_CalledProcessError m (fun _ => warning w) s)) = summary s /\
    snd (try_except is_CalledProcessError m (fun _ => warning w) s) = inr tt /\
    (seq_ok (world s) cwd cmds = false ->
       logs (fst (try_except is_CalledProcessError m (fun _ => warning w) s))
       = (logs s ++ [LWarning w])%list).
Proof.
  intros Hm. destruct (Hm s) as [k [Ht [Hk [Hs [_ [Hr [Hl He]]]]]]].
  exists k. unfold try_except.
  destruct (m s) as [s1 [e|[]]] eqn:E; simpl in *.
  - rewrite (He e eq_refl). simpl. repeat split; auto.
    intros _. rewrite Hl by discriminate. reflexivity.
  - repeat split; auto. intros Hf. exfalso.
    assert (seq_ok (world s) cwd cmds = true) by (apply Hr; reflexivity). congruence.
Qed.



(** A block that runs a prefix of [cmds] (a non-empty one if [cmds] is
    not empty), never raises and leaves the summary alone. *)
Definition Attempts (cwd : string) (cmds : list (list string)) (m : @M W unit) : Prop :=
  forall s, exists k,
    trace (fst (m s)) = (trace s ++ cmd_events cwd (firstn k cmds))%list /\
    (cmds <> [] -> 0 < k) /\
    summary (fst (m s)) = summary s /\
    snd (m s) = inr tt.

Lemma Attempts_ret cwd : Attempts cwd [] (ret tt).
Proof.
  intros s. exists 0. simpl. rewrite app_nil_r. repeat split; intros; congruence.
Qed.

Lemma Attempts_try cwd cmds (m : @M W unit) w :
  RunsPrefix cwd cmds m ->
  Attempts cwd cmds (try_except is_CalledProcessError m (fun _ => warning w)).
Proof.
  intros Hm s. destruct (RunsPrefix_try cwd cmds m w s Hm) as [k [Ht [Hk [Hs [Hr _]]]]].
  exists k. auto.
Qed.

Lemma branch_create_block_runs cwd n :
  RunsPrefix cwd (create_cmds n)
    (bind (run_git_cmd ["git"; "checkout"; "-b"; n] cwd true false []) (fun _ =>
     bind (run_git_cmd ["git"; "push"; "-u"; "origin"; n] cwd true false []) (fun _ =>
     info ("Created and pushed branch " ++ n)))).
Proof. apply RunsPrefix_cons, RunsPrefix_cons, RunsPrefix_info. Qed.

Lemma branch_rename_block_runs cwd old new :
  RunsPrefix cwd (rename_cmds old new)
    (bind (run_git_cmd ["git"; "branch"; "-m"; old; new] cwd true false []) (fun _ =>
     bind (run_git_cmd ["git"; "push"; "origin"; ":" ++ old] cwd true false []) (fun _ =>
     bind (run_git_cmd ["git"; "push"; "-u"; "origin"; new] cwd true false []) (fun _ =>
     info ("Renamed branch " ++ old ++ " -> " ++ new))))).
Proof. apply RunsPrefix_cons, RunsPrefix_cons, RunsPrefix_cons, RunsPrefix_info. Qed.

Lemma branch_switch_block_runs cwd n :
  RunsPrefix cwd (switch_cmds n)
    (bind (run_git_cmd ["git"; "checkout"; n] cwd true false []) (fun _ =>
     info ("Switched to branch " ++ n))).
Proof. apply RunsPrefix_cons, RunsPrefix_info. Qed.

Lemma initial_commit_block_runs cwd branch :
  RunsPrefix cwd (initial_commit_cmds branch)
    (bind (run_git_cmd ["git"; "add"; "-A"] cwd true false []) (fun _ =>
     bind (run_git_cmd ["git"; "checkout"; "-b"; branch] cwd true false []) (fun _ =>
     bind (run_git_cmd ["git"; "commit"; "-m"; "Initial commit"] cwd true false []) (fun _ =>
     ret tt)))).
Proof. apply RunsPrefix_cons, RunsPrefix_cons, RunsPrefix_cons, RunsPrefix_ret. Qed.

Lemma Attempts_create cwd ops :
  Attempts cwd (requested_create ops) (when_truthy (bo_create ops) (branch_create_block cwd)).
Proof.
  unfold requested_create, when_truthy. destruct (bo_create ops) as [n|]; [|apply Attempts_ret].
  destruct (truthy (Some n)); [|apply Attempts_ret].
  apply Attempts_try, branch_create_block_runs.
Qed.

Lemma Attempts_rename cwd ops :
  Attempts cwd (requested_rename ops)
    (match bo_rename ops with
     | Some (old, new) => branch_rename_block cwd old new
     | None => ret tt
     end).
Proof.
  unfold requested_rename. destruct (bo_rename ops) as [[old new]|]; [|apply Attempts_ret].
  apply Attempts_try, branch_rename_block_runs.
Qed.

Lemma Attempts_switch cwd ops :
  Attempts cwd (requested_switch ops) (when_truthy (bo_switch ops) (branch_switch_block cwd)).
Proof.
  unfold requested_switch, when_truthy. destruct (bo_switch ops) as [n|]; [|apply Attempts_ret].
  destruct (truthy (Some n)); [|apply Attempts_ret].
  apply Attempts_try, branch_switch_block_runs.
Qed.

(** [_do_branch_operations] attempts every requested operation, in the
    order create, rename, switch, never raises and records no outcome. *)
Lemma do_branch_operations_attempts (pr : Processor) (cwd : string) (s : @St W) :
  let ops := do_branch_ops pr in
  snd (do_branch_operations pr cwd s) = inr tt /\
  summary (fst (do_branch_operations pr cwd s)) = summary s /\
  exists k1 k2 k3,
    trace (fst (do_branch_operations pr cwd s))
    = (trace s ++ cmd_events cwd (firstn k1 (requested_create ops)
                                  ++ firstn k2 (requested_rename ops)
                                  ++ firstn k3 (requested_switch ops)))%list /\
    (requested_create ops <> [] -> 0 < k1) /\
    (requested_rename ops <> [] -> 0 < k2) /\
    (requested_switch ops <> [] -> 0 < k3).
Proof.
  intros ops.
  assert (Hbody : forall s,
    let m := bind (when_truthy (bo_create ops) (branch_create_block cwd)) (fun _ =>
             bind (match bo_rename ops with
                   | Some (old, new) => branch_rename_block cwd old new
                   | None => ret tt
                   end) (fun _ => when_truthy (bo_switch ops) (branch_switch_block cwd))) in
    snd (m s) = inr tt /\ summary (fst (m s)) = summary s /\
    exists k1 k2 k3,
      trace (fst (m s))
      = (trace s ++ cmd_events cwd (firstn k1 (requested_create ops)
                                    ++ firstn k2 (requested_rename ops)
                                    ++ firstn k3 (requested_switch ops)))%list /\
      (requested_create ops <> [] -> 0 < k1) /\
      (requested_rename ops <> [] -> 0 < k2) /\
      (requested_switch ops <> [] -> 0 < k3)).
  { intros s0 m. unfold m, bind.
    destruct (Attempts_create cwd ops s0) as [k1 [T1 [P1 [S1 R1]]]].
    destruct (when_truthy (bo_create ops) (branch_create_block cwd) s0) as [s1 r1].
    simpl in *. subst r1.
    destruct (Attempts_rename cwd ops s1) as [k2 [T2 [P2 [S2 R2]]]].
    destruct (match bo_rename ops with
              | Some (old, new) => branch_rename_block cwd old new
              | None => ret tt
              end s1) as [s2 r2].
    simpl in *. subst r2.
    destruct (Attempts_switch cwd ops s2) as [k3 [T3 [P3 [S3 R3]]]].
    repeat split; try congruence.
    exists k1, k2, k3. repeat split; auto.
    rewrite T3, T2, T1. unfold cmd_events. rewrite !map_app, !app_assoc. reflexivity. }
  unfold do_branch_operations. fold ops.
  destruct ops as [[c|] [[o n]|] [w|]]; apply Hbody.
Qed.

End Commands.

(** ** The exit status of [main] *)

Section MainExit.
Context {W : Type} `{OS W}.

Definition is_error_log (l : Log) : Prop := exists m, l = LError m.

Lemma obtain_token_ok (args : Args) (s : @St W) :
  truthy (token_of args (world s)) = true ->
  obtain_token args s = (s, inr (match token_of args (world s) with Some t => t | None => "" end)).
Proof.
  unfold obtain_token, token_of, bind, gets, ret.
  destruct (truthy (a_token args)) eqn:E1; [intros Ht; rewrite Ht; reflexivity|].
  destruct (truthy (a_token_from_env args)) eqn:E2.
  - intros Ht; rewrite Ht; simpl; rewrite Ht; reflexivity.
  - destruct (a_yes args) eqn:E3; simpl; [discriminate|].
    destruct (os_getpass (world s)) as [t|]; [|discriminate].
    intros Ht; rewrite Ht; reflexivity.
Qed.

Lemma obtain_token_fail (args : Args) (s : @St W) :
  truthy (token_of args (world s)) = false ->
  exists l e, obtain_token args s
            = (mkSt (world s) (hub s) (trace s) (logs s ++ l) (summary s), inl e) /\
            (e = SystemExit 1 \/ e = EOFError) /\ Forall is_error_log l.
Proof.
  unfold obtain_token, token_of, bind, gets, ret, sys_exit, raise, error, modify.
  destruct (truthy (a_token args)) eqn:E1.
  - intros Ht; rewrite Ht. simpl. do 2 eexists; split; [reflexivity|].
    split; [left; reflexivity|]. repeat constructor; eexists; reflexivity.
  - destruct (truthy (a_token_from_env args)) eqn:E2.
    + intros Ht; simpl; rewrite Ht; simpl. do 2 eexists; split; [reflexivity|].
      split; [left; reflexivity|]. repeat constructor; eexists; reflexivity.
    + destruct (a_yes args) eqn:E3; simpl.
      * intros _. do 2 eexists; split; [reflexivity|].
        split; [left; reflexivity|]. repeat constructor; eexists; reflexivity.
      * destruct (os_getpass (world s)) as [t|].
        -- intros Ht; simpl in Ht |- *; rewrite Ht. simpl. do 2 eexists; split; [reflexivity|].
           split; [left; reflexivity|]. repeat constructor; eexists; reflexivity.
        -- intros _. exists [], EOFError. rewrite app_nil_r. destruct s; simpl.
           split; [reflexivity|]. split; [right; reflexivity|constructor].
Qed.

Lemma GitHubManager_init_spec (tok : string) (s : @St W) :
  match GitHubManager_init tok s with
  | (s', inr g) => auth_ok (hub s) tok = true /\ s' = s /\ g = hub_login (hub s)
  | (s', inl e) => auth_ok (hub s) tok = false /\ s' = s /\ is_Exception e = true
  end.
Proof.
  unfold GitHubManager_init, auth_ok, try_except, bind, gets, ret, raise.
  destruct os_pygithub; simpl; [|auto].
  destruct (hub_accepts (hub s) tok); simpl; auto.
Qed.

(** The logs only grow. *)
Definition LogsGrow (a b : @St W) : Prop := exists l, logs b = (logs a ++ l)%list.

Ltac logs_grow :=
  unfold LogsGrow; intros; simpl;
  first [ exists []; rewrite app_nil_r; reflexivity
        | eexists; reflexivity
        | match goal with
          | H1 : exists _, _ , H2 : exists _, _ |- _ =>
              destruct H1 as [l1 E1]; destruct H2 as [l2 E2];
              exists (l1 ++ l2)%list; rewrite E2, E1, app_assoc; reflexivity
          end ].

Lemma report_summary_logs (s : @St W) :
  exists l, logs (fst (report_summary s)) = (logs s ++ LInfo summary_header :: l)%list.
Proof.
  unfold report_summary. erewrite bind_eq by reflexivity. cbv beta.
  erewrite bind_eq by reflexivity. cbv beta.
  match goal with |- context [fst (?k ?s1)] =>
    assert (HS : Safe LogsGrow k) end.
  { repeat match goal with
      | |- Safe _ (bind _ _) => apply Safe_bind
      | |- Safe _ (info _) => apply Safe_info
      | |- Safe _ (log_entries _) => apply Safe_log_entries
      | |- forall _ : unit, _ => intro
      | |- forall _, _ => logs_grow
      end. }
  match goal with |- context [fst (?k ?s1)] => destruct (HS s1) as [[l Hl] _] end.
  rewrite Hl. exists l. simpl. rewrite <- app_assoc. reflexivity.
Qed.

Lemma process_all_runs (pr : Processor) (s : @St W) :
  os_is_dir (world s) (parent_dir pr) = true ->
  (select_subdirs (world s) (parent_dir pr) = [] ->
     process_all pr s
     = (add_log (LInfo "No subdirectories found under the parent path.") s, inr tt)) /\
  (select_subdirs (world s) (parent_dir pr) <> [] ->
     snd (process_all pr s) = inr tt /\
     In (LInfo summary_header) (logs (fst (process_all pr s)))).
Proof.
  intros Hd. unfold process_all.
  erewrite bind_eq;
    [|unfold get_subdirectories, path_is_dir, gets, bind; rewrite Hd; reflexivity].
  destruct (select_subdirs (world s) (parent_dir pr)) as [|q qs];
    [split; [reflexivity|intros C; exfalso; apply C; reflexivity]|].
  split; [discriminate|intros _].
  erewrite bind_eq; [|reflexivity]. cbv beta.
  match goal with |- context [bind (process_loop pr (q :: qs)) _ ?s1] =>
    destruct (process_loop_summary pr (q :: qs) s1) as [Hr _];
    destruct (process_loop pr (q :: qs) s1) as [s2 r2] eqn:E end.
  simpl in Hr. subst r2. erewrite bind_eq; [|exact E].
  split; [apply report_summary_summary|].
  destruct (report_summary_logs s2) as [l Hl]. rewrite Hl.
  apply in_or_app. right. left. reflexivity.
Qed.

(** [main] up to the confirmation, when none of the fatal conditions
    holds. *)
Lemma main_fatal (args : Args) (s : @St W) :
  fatal_config args (world s) (hub s) = true ->
  exists l e, main args s
            = (mkSt (world s) (hub s) (trace s) (logs s ++ l) (summary s), inl e) /\
            (e = SystemExit 1 \/ e = EOFError) /\ Forall is_error_log l.
Proof.
  unfold fatal_config. intros Hf.
  unfold main at 1. cbv [bind gets path_is_dir ret].
  destruct (os_is_dir (world s) (os_resolve (world s) (a_parent args))) eqn:Hd.
  2:{ cbv [negb]; cbv iota beta. do 2 eexists; split; [reflexivity|].
      split; [left; reflexivity|]. repeat constructor; eexists; reflexivity. }
  cbv [negb]; cbv iota beta.
  destruct (truthy (token_of args (world s))) eqn:Ht.
  2:{ destruct (obtain_token_fail args s Ht) as [l [e [E [He Hl]]]]. rewrite E.
      exists l, e; split; [reflexivity|split; [exact He|exact Hl]]. }
  rewrite (obtain_token_ok args s Ht).
  simpl in Hf. rewrite Bool.negb_true_iff in Hf.
  pose proof (GitHubManager_init_spec (match token_of args (world s) with Some t => t | None => "" end) s) as Hg.
  unfold try_except.
  destruct (GitHubManager_init _ s) as [s1 [e|g]].
  - destruct Hg as [_ [-> He]]. rewrite He. cbv [error sys_exit raise modify].
    do 2 eexists; split; [reflexivity|].
    split; [left; reflexivity|]. repeat constructor; eexists; reflexivity.
  - destruct Hg as [Hg _]. congruence.
Qed.

Lemma main_nonfatal (args : Args) (s : @St W) :
  fatal_config args (world s) (hub s) = false ->
  let pr := make_processor (os_resolve (world s) (a_parent args))
              (Some (hub_login (hub s)))
              (Some (match token_of args (world s) with Some t => t | None => "" end))
              (a_name args) (a_email args) (a_protocol args) (a_private args)
              (a_default_branch args) (a_https_token args) (branch_ops_of args) in
  exists s7 l7,
    world s7 = world s /\ trace s7 = trace s /\ summary s7 = summary s /\
    logs s7 = (logs s ++ l7)%list /\ ~ In (LInfo summary_header) l7 /\
    main args s
    = if input_eof args (world s) then (s7, inl EOFError)
      else if confirmed args (world s)
      then match process_all pr s7 with
           | (s', inl e) => (s', inl e)
           | (s', inr _) => (add_log (LInfo "All done") s', inr tt)
           end
      else (add_log (LInfo "Aborted by user") s7, inl (SystemExit 0)).
Proof.
  unfold fatal_config. intros Hf.
  destruct (os_is_dir (world s) (os_resolve (world s) (a_parent args))) eqn:Hd; [|discriminate].
  destruct (truthy (token_of args (world s))) eqn:Ht; [|discriminate].
  simpl in Hf. rewrite Bool.negb_false_iff in Hf.
  unfold main at 1. cbv [bind gets path_is_dir ret]. rewrite Hd. cbv [negb]; cbv iota beta.
  rewrite (obtain_token_ok args s Ht).
  pose proof (GitHubManager_init_spec (match token_of args (world s) with Some t => t | None => "" end) s) as Hg.
  unfold try_except.
  destruct (GitHubManager_init _ s) as [s1 [e|g]]; [destruct Hg as [Hg _]; congruence|].
  destruct Hg as [_ [-> ->]].
  cbv [info modify].
  match goal with
  | |- context [(if (if a_yes args then false else true) then _ else _) ?s7] =>
    exists s7 end.
  eexists. split; [reflexivity|]. split; [reflexivity|]. split; [reflexivity|].
  split; [simpl; rewrite <- !app_assoc; reflexivity|].
  split.
  { simpl. intros Hin. repeat destruct Hin as [Hin|Hin]; try exact Hin;
      inversion Hin. }
  unfold confirmed, input_eof.
  destruct (a_yes args); simpl.
  - reflexivity.
  - destruct (os_input (world s)) as [a|]; simpl; [|reflexivity].
    match goal with |- context [if ?c then _ else _] => destruct c end; reflexivity.
Qed.

Lemma not_in_app (x : Log) (l1 l2 : list Log) :
  ~ In x l1 -> ~ In x l2 -> ~ In x (l1 ++ l2)%list.
Proof. intros H1 H2 Hin. apply in_app_or in Hin. tauto. Qed.

Lemma not_in_error_logs (l : list Log) :
  Forall is_error_log l -> ~ In (LInfo summary_header) l.
Proof.
  intros Hl Hin. rewrite Forall_forall in Hl. destruct (Hl _ Hin) as [m Hm]. discriminate.
Qed.


End MainExit.

(** ** How command failures are handled *)

Section Failures.
Context {W : Type} `{OS W}.

Lemma try_block_warns cwd cmds (m : @M W unit) w (s : @St W) :
  RunsPrefix cwd cmds m ->
  snd (try_except is_CalledProcessError m (fun _ => warning w) s) = inr tt /\
  (seq_ok (world s) cwd cmds = false ->
   logs (fst (try_except is_CalledProcessError m (fun _ => warning w) s))
   = (logs s ++ [LWarning w])%list).
Proof.
  intros Hm. destruct (RunsPrefix_try cwd cmds m w s Hm) as [k [_ [_ [_ [Hr Hl]]]]]. auto.
Qed.

Lemma bind_raise {A B} (m : @M W A) (k : A -> @M W B) s s' e :
  m s = (s', inl e) -> bind m k s = (s', inl e).
Proof. intros E. unfold bind. rewrite E. reflexivity. Qed.

(** [process_project_steps] as the sequence of its steps, after the
    heading line. *)
Lemma process_project_steps_eq (pr : Processor) (p : Project) (s : @St W) :
  process_project_steps pr p s =
  bind (step_git_init (p_path p)) (fun _ =>
  bind (step_git_config pr (p_path p)) (fun _ =>
  bind (step_initial_commit (p_name p) (p_path p) (branch_name_of pr (p_name p))) (fun _ =>
  bind (step_remote pr (p_name p) (p_path p) (branch_name_of pr (p_name p))) (fun _ =>
  bind (step_push pr (p_name p) (p_path p) (branch_name_of pr (p_name p))) (fun _ =>
  do_branch_operations pr (p_path p))))))
    (add_log (LInfo (nl ++ "=== Processing: " ++ p_name p ++ " ===")) s).
Proof. reflexivity. Qed.

(** A project whose steps raise is recorded as failed, with [str(e)]. *)
Lemma project_failure_recorded (pr : Processor) (p : Project) (s s' : @St W) e :
  process_project_steps pr p s = (s', inl e) ->
  summary (fst (process_loop pr [p] s)) = (summary s ++ [(p_name p, false, exc_str e)])%list.
Proof.
  intros E. destruct (process_project_steps_safe pr p s) as [Hs He].
  rewrite E in Hs, He. simpl in Hs. specialize (He e eq_refl).
  rewrite process_loop_cons. unfold process_project. rewrite (bind_raise _ _ _ _ _ E), He.
  simpl. rewrite Hs. reflexivity.
Qed.

Lemma step_git_config_fails (pr : Processor) (cwd : string) (s : @St W) :
  seq_ok (world s) cwd (config_cmds pr) = false ->
  exists s' c rc, step_git_config pr cwd s = (s', inl (CalledProcessError c rc)) /\
                  In c (config_cmds pr) /\ rc <> 0%Z.
Proof.
  unfold step_git_config, config_cmds, when_truthy. intros Hseq.
  destruct (git_name pr) as [v|];
    [destruct (truthy (Some v)) eqn:Tv|];
    (destruct (git_email pr) as [u|];
      [destruct (truthy (Some u)) eqn:Tu|]);
    cbv [bind run_git_cmd ret app seq_ok add_event set_world] in Hseq |- *;
    simpl in Hseq |- *;
    repeat match goal with
      | |- context [os_run ?w ?c] =>
          let rc := fresh "rc" in let w' := fresh "w" in
          destruct (os_run w c) as [rc w']; simpl in Hseq |- *
      | |- context [(?rc =? 0)%Z] =>
          let E := fresh "E" in
          destruct (rc =? 0)%Z eqn:E; simpl in Hseq |- *;
          [apply Z.eqb_eq in E|apply Z.eqb_neq in E]
      end;
    try discriminate;
    do 3 eexists; (split; [reflexivity|]); split; simpl; auto.
Qed.

Lemma switch_fallback_fails (name cwd b : string) (s s1 : @St W) :
  has_commits cwd s = (s1, inr true) ->
  fst (os_run (world s1) (mkCmd ["git"; "checkout"; b] cwd [])) <> 0%Z ->
  fst (os_run (snd (os_run (world s1) (mkCmd ["git"; "checkout"; b] cwd [])))
              (mkCmd ["git"; "checkout"; "-b"; b] cwd [])) <> 0%Z ->
  exists s', step_initial_commit name cwd b s
             = (s', inl (CalledProcessError ["git"; "checkout"; "-b"; b]
                  (fst (os_run (snd (os_run (world s1) (mkCmd ["git"; "checkout"; b] cwd [])))
                               (mkCmd ["git"; "checkout"; "-b"; b] cwd []))))).
Proof.
  intros Hc. unfold step_initial_commit. rewrite (bind_eq _ _ _ _ _ Hc).
  cbv [negb]; cbv beta iota. unfold switch_block. cbv [try_except bind run_git_cmd ret].
  destruct (os_run (world s1) (mkCmd ["git"; "checkout"; b] cwd [])) as [rc1 w1]; simpl.
  intros H1. destruct (rc1 =? 0)%Z eqn:E1; [apply Z.eqb_eq in E1; contradiction|]. simpl.
  destruct (os_run w1 (mkCmd ["git"; "checkout"; "-b"; b] cwd [])) as [rc2 w2]; simpl.
  intros H2. destruct (rc2 =? 0)%Z eqn:E2; [apply Z.eqb_eq in E2; contradiction|].
  eexists; reflexivity.
Qed.

Lemma remote_add_fails (pr : Processor) (name cwd b : string) (s s1 : @St W) g r :
  github_manager pr = Some g ->
  create_repo name (private pr) "" false (Some b) s = (s1, inr r) ->
  fst (os_run (snd (os_run (world s1) (mkCmd ["git"; "remote"; "remove"; "origin"] cwd [])))
              (mkCmd ["git"; "remote"; "add"; "origin"; remote_url_for pr r] cwd [])) <> 0%Z ->
  exists s', step_remote pr name cwd b s
             = (s', inl (CalledProcessError ["git"; "remote"; "add"; "origin"; remote_url_for pr r]
                  (fst (os_run (snd (os_run (world s1)
                                      (mkCmd ["git"; "remote"; "remove"; "origin"] cwd [])))
                     (mkCmd ["git"; "remote"; "add"; "origin"; remote_url_for pr r] cwd []))))).
Proof.
  intros Hg Hc. unfold step_remote. rewrite Hg, (bind_eq _ _ _ _ _ Hc). cbv zeta.
  cbv [bind try_except run_git_cmd ret].
  destruct (os_run (world s1) (mkCmd ["git"; "remote"; "remove"; "origin"] cwd []))
    as [rc1 w1]; simpl.
  destruct (os_run w1 (mkCmd ["git"; "remote"; "add"; "origin"; remote_url_for pr r] cwd []))
    as [rc2 w2]; simpl.
  intros H2. destruct (rc2 =? 0)%Z eqn:E2; [apply Z.eqb_eq in E2; contradiction|].
  eexists; reflexivity.
Qed.

Lemma push_fails (pr : Processor) (name cwd b : string) (s : @St W) :
  fst (os_run (world s) (mkCmd ["git"; "push"; "-u"; "origin"; b] cwd (push_env pr))) <> 0%Z ->
  exists s', step_push pr name cwd b s
             = (s', inl (RuntimeError ("Failed to push " ++ name ++ ": " ++
                  exc_str (CalledProcessError ["git"; "push"; "-u"; "origin"; b]
                    (fst (os_run (world s) (mkCmd ["git"; "push"; "-u"; "origin"; b] cwd
                                              (push_env pr)))))))).
Proof.
  unfold step_push. cbv [bind try_except run_git_cmd raise].
  destruct (os_run (world s) (mkCmd ["git"; "push"; "-u"; "origin"; b] cwd (push_env pr)))
    as [rc w'] eqn:E; simpl.
  intros Hrc. destruct (rc =? 0)%Z eqn:Ez; [apply Z.eqb_eq in Ez; contradiction|].
  simpl. eexists; reflexivity.
Qed.

(** C6: the severity of a failing command depends on where it runs.
    [git remote remove origin] runs with [check=False]: whatever its exit
    status, [step_remote] returns exactly when [git remote add origin]
    succeeds. The initial-commit block and each branch sub-operation never
    raise, and log their warning when one of their commands fails;
    [_do_branch_operations] as a whole never raises. A failing push raises
    a [RuntimeError] naming the project and the [CalledProcessError]. The
    loop records the project as failed, with [str(e)] as the reason, when
    the push fails, and when an earlier command that runs with [check=True]
    outside a [try] fails: [git init], a [git config] command, the
    [git checkout -b] fallback of a repository that has commits, or
    [git remote add origin]. *)
Theorem command_failure_policy (pr : Processor) (name cwd branch : string) :
  (forall (s s1 : @St W) g r,
     github_manager pr = Some g ->
     create_repo name (private pr) "" false (Some branch) s = (s1, inr r) ->
     (snd (step_remote pr name cwd branch s) = inr tt <->
      fst (os_run (snd (os_run (world s1) (mkCmd ["git"; "remote"; "remove"; "origin"] cwd [])))
                  (mkCmd ["git"; "remote"; "add"; "origin"; remote_url_for pr r] cwd []))
      = 0%Z)) /\
  (forall s : @St W,
     snd (initial_commit_block cwd branch s) = inr tt /\
     (seq_ok (world s) cwd (initial_commit_cmds branch) = false ->
      logs (fst (initial_commit_block cwd branch s))
      = (logs s ++ [LWarning initial_commit_warning])%list)) /\
  (forall (s : @St W) n,
     snd (branch_create_block cwd n s) = inr tt /\
     (seq_ok (world s) cwd (create_cmds n) = false ->
      logs (fst (branch_create_block cwd n s))
      = (logs s ++ [LWarning ("Could not create branch " ++ n)])%list)) /\
  (forall (s : @St W) old new,
     snd (branch_rename_block cwd old new s) = inr tt /\
     (seq_ok (world s) cwd (rename_cmds old new) = false ->
      logs (fst (branch_rename_block cwd old new s))
      = (logs s ++ [LWarning ("Could not rename branch " ++ old ++ " -> " ++ new)])%list)) /\
  (forall (s : @St W) n,
     snd (branch_switch_block cwd n s) = inr tt /\
     (seq_ok (world s) cwd (switch_cmds n) = false ->
      logs (fst (branch_switch_block cwd n s))
      = (logs s ++ [LWarning ("Could not switch to branch " ++ n)])%list)) /\
  (forall s : @St W,
     snd (do_branch_operations pr cwd s) = inr tt /\
     summary (fst (do_branch_operations pr cwd s)) = summary s) /\
  (forall s : @St W,
     fst (os_run (world s) (mkCmd ["git"; "push"; "-u"; "origin"; branch] cwd (push_env pr)))
       <> 0%Z ->
     exists s', step_push pr name cwd branch s
                = (s', inl (RuntimeError ("Failed to push " ++ name ++ ": " ++
                     exc_str (CalledProcessError ["git"; "push"; "-u"; "origin"; branch]
                       (fst (os_run (world s) (mkCmd ["git"; "push"; "-u"; "origin"; branch] cwd
                                                 (push_env pr))))))))) /\
  (forall (p : Project) (s : @St W),
     os_exists (world s) (path_join (p_path p) ".git") = false ->
     fst (os_run (world s) (mkCmd ["git"; "init"] (p_path p) [])) <> 0%Z ->
     summary (fst (process_loop pr [p] s))
     = (summary s ++ [(p_name p, false,
          exc_str (CalledProcessError ["git"; "init"]
                     (fst (os_run (world s) (mkCmd ["git"; "init"] (p_path p) [])))))])%list) /\
  (forall (p : Project) (s s1 : @St W),
     step_git_init (p_path p) (add_log (LInfo (nl ++ "=== Processing: " ++ p_name p ++ " ===")) s)
       = (s1, inr tt) ->
     seq_ok (world s1) (p_path p) (config_cmds pr) = false ->
     exists c rc, In c (config_cmds pr) /\ rc <> 0%Z /\
       summary (fst (process_loop pr [p] s))
       = (summary s ++ [(p_name p, false, exc_str (CalledProcessError c rc))])%list) /\
  (forall (p : Project) (s s1 s2 s3 : @St W),
     step_git_init (p_path p) (add_log (LInfo (nl ++ "=== Processing: " ++ p_name p ++ " ===")) s)
       = (s1, inr tt) ->
     step_git_config pr (p_path p) s1 = (s2, inr tt) ->
     has_commits (p_path p) s2 = (s3, inr true) ->
     fst (os_run (world s3)
            (mkCmd ["git"; "checkout"; branch_name_of pr (p_name p)] (p_path p) [])) <> 0%Z ->
     fst (os_run (snd (os_run (world s3)
                         (mkCmd ["git"; "checkout"; branch_name_of pr (p_name p)] (p_path p) [])))
            (mkCmd ["git"; "checkout"; "-b"; branch_name_of pr (p_name p)] (p_path p) [])) <> 0%Z ->
     summary (fst (process_loop pr [p] s))
     = (summary s ++ [(p_name p, false,
          exc_str (CalledProcessError ["git"; "checkout"; "-b"; branch_name_of pr (p_name p)]
            (fst (os_run (snd (os_run (world s3)
                                 (mkCmd ["git"; "checkout"; branch_name_of pr (p_name p)]
                                        (p_path p) [])))
                    (mkCmd ["git"; "checkout"; "-b"; branch_name_of pr (p_name p)]
                           (p_path p) [])))))])%list) /\
  (forall (p : Project) (s s1 s2 s3 s4 : @St W) g r,
     step_git_init (p_path p) (add_log (LInfo (nl ++ "=== Processing: " ++ p_name p ++ " ===")) s)
       = (s1, inr tt) ->
     step_git_config pr (p_path p) s1 = (s2, inr tt) ->
     step_initial_commit (p_name p) (p_path p) (branch_name_of pr (p_name p)) s2 = (s3, inr tt) ->
     github_manager pr = Some g ->
     create_repo (p_name p) (private pr) "" false (Some (branch_name_of pr (p_name p))) s3
       = (s4, inr r) ->
     fst (os_run (snd (os_run (world s4) (mkCmd ["git"; "remote"; "remove"; "origin"] (p_path p) [])))
            (mkCmd ["git"; "remote"; "add"; "origin"; remote_url_for pr r] (p_path p) [])) <> 0%Z ->
     summary (fst (process_loop pr [p] s))
     = (summary s ++ [(p_name p, false,
          exc_str (CalledProcessError ["git"; "remote"; "add"; "origin"; remote_url_for pr r]
            (fst (os_run (snd (os_run (world s4)
                                 (mkCmd ["git"; "remote"; "remove"; "origin"] (p_path p) [])))
                    (mkCmd ["git"; "remote"; "add"; "origin"; remote_url_for pr r]
                           (p_path p) [])))))])%list) /\
  (forall (p : Project) (s s1 s2 s3 s4 : @St W),
     step_git_init (p_path p) (add_log (LInfo (nl ++ "=== Processing: " ++ p_name p ++ " ===")) s)
       = (s1, inr tt) ->
     step_git_config pr (p_path p) s1 = (s2, inr tt) ->
     step_initial_commit (p_name p) (p_path p) (branch_name_of pr (p_name p)) s2 = (s3, inr tt) ->
     step_remote pr (p_name p) (p_path p) (branch_name_of pr (p_name p)) s3 = (s4, inr tt) ->
     fst (os_run (world s4) (mkCmd ["git"; "push"; "-u"; "origin"; branch_name_of pr (p_name p)]
                              (p_path p) (push_env pr))) <> 0%Z ->
     summary (fst (process_loop pr [p] s))
     = (summary s ++ [(p_name p, false,
          ("Failed to push " ++ p_name p ++ ": " ++
           exc_str (CalledProcessError ["git"; "push"; "-u"; "origin"; branch_name_of pr (p_name p)]
             (fst (os_run (world s4)
                     (mkCmd ["git"; "push"; "-u"; "origin"; branch_name_of pr (p_name p)]
                            (p_path p) (push_env pr))))))%string)])%list).
Proof.
  split; [|split; [|split; [|split; [|split; [|split; [|split; [|split; [|split; [|split; [|split]]]]]]]]]].
  - intros s s1 g r Hg Hc. unfold step_remote. rewrite Hg.
    cbv [bind try_except run_git_cmd ret info modify]. rewrite Hc.
    destruct (os_run (world s1) (mkCmd ["git"; "remote"; "remove"; "origin"] cwd []))
      as [rc1 w1]; simpl.
    destruct (os_run w1 (mkCmd ["git"; "remote"; "add"; "origin"; remote_url_for pr r] cwd []))
      as [rc2 w2]; simpl.
    destruct (rc2 =? 0)%Z eqn:E; simpl.
    + apply Z.eqb_eq in E. split; auto.
    + apply Z.eqb_neq in E. split; [discriminate|contradiction].
  - intros s. apply try_block_warns, initial_commit_block_runs.
  - intros s n. apply try_block_warns, branch_create_block_runs.
  - intros s old new. apply try_block_warns, branch_rename_block_runs.
  - intros s n. apply try_block_warns, branch_switch_block_runs.
  - intros s. destruct (do_branch_operations_attempts pr cwd s) as [Hr [Hs _]]. auto.
  - intros s. apply push_fails.
  - intros p s Hex Hrc. rewrite process_loop_cons.
    unfold process_project, process_project_steps, step_git_init.
    cbv [bind info modify path_exists gets run_git_cmd ret]. simpl. rewrite Hex. simpl.
    destruct (os_run (world s) (mkCmd ["git"; "init"] (p_path p) [])) as [rc w'] eqn:E.
    simpl in Hrc |- *.
    destruct (rc =? 0)%Z eqn:Ez; [apply Z.eqb_eq in Ez; contradiction|].
    reflexivity.
  - intros p s s1 E1 Hseq.
    destruct (step_git_config_fails pr (p_path p) s1 Hseq) as [s2 [c [rc [E2 [Hin Hrc]]]]].
    exists c, rc. split; [exact Hin|split; [exact Hrc|]].
    apply (project_failure_recorded pr p s s2). rewrite process_project_steps_eq.
    rewrite (bind_eq _ _ _ _ _ E1). apply bind_raise. exact E2.
  - intros p s s1 s2 s3 E1 E2 E3 Hrc1 Hrc2.
    destruct (switch_fallback_fails (p_name p) (p_path p) (branch_name_of pr (p_name p)) s2 s3
                E3 Hrc1 Hrc2) as [s4 E4].
    apply (project_failure_recorded pr p s s4). rewrite process_project_steps_eq.
    rewrite (bind_eq _ _ _ _ _ E1), (bind_eq _ _ _ _ _ E2). apply bind_raise. exact E4.
  - intros p s s1 s2 s3 s4 g r E1 E2 E3 Hg Hc Hrc.
    destruct (remote_add_fails pr (p_name p) (p_path p) (branch_name_of pr (p_name p)) s3 s4 g r
                Hg Hc Hrc) as [s5 E5].
    apply (project_failure_recorded pr p s s5). rewrite process_project_steps_eq.
    rewrite (bind_eq _ _ _ _ _ E1), (bind_eq _ _ _ _ _ E2), (bind_eq _ _ _ _ _ E3).
    apply bind_raise. exact E5.
  - intros p s s1 s2 s3 s4 E1 E2 E3 E4 Hrc.
    destruct (push_fails pr (p_name p) (p_path p) (branch_name_of pr (p_name p)) s4 Hrc)
      as [s5 E5].
    apply (project_failure_recorded pr p s s5 (RuntimeError _)). rewrite process_project_steps_eq.
    rewrite (bind_eq _ _ _ _ _ E1), (bind_eq _ _ _ _ _ E2), (bind_eq _ _ _ _ _ E3),
      (bind_eq _ _ _ _ _ E4).
    apply bind_raise. exact E5.
Qed.

End Failures.

(** ** Branch operations *)

Section Branches.
Context {W : Type} `{OS W}.

(** C3 (as the code has it): after the push, [_do_branch_operations]
    attempts every operation the request holds, not at most one: first
    [create], then [rename], then [switch], each in its own [try], so each
    requested operation runs at least its first command whatever happened
    to the ones before; it never raises and records no outcome. *)
Theorem branch_operations_each_attempted (pr : Processor) (cwd : string) (s : @St W) :
  snd (do_branch_operations pr cwd s) = inr tt /\
  summary (fst (do_branch_operations pr cwd s)) = summary s /\
  exists k1 k2 k3,
    trace (fst (do_branch_operations pr cwd s))
    = (trace s ++ cmd_events cwd (firstn k1 (requested_create (do_branch_ops pr))
                                  ++ firstn k2 (requested_rename (do_branch_ops pr))
                                  ++ firstn k3 (requested_switch (do_branch_ops pr))))%list /\
    (requested_create (do_branch_ops pr) <> [] -> 0 < k1) /\
    (requested_rename (do_branch_ops pr) <> [] -> 0 < k2) /\
    (requested_switch (do_branch_ops pr) <> [] -> 0 < k3).
Proof. exact (do_branch_operations_attempts pr cwd s). Qed.

End Branches.

(** ** Further properties of the steps *)

Section Extras.
Context {W : Type} `{OS W}.

(** Case analysis on the exit statuses of the commands a goal runs. *)
Ltac run_cases :=
  repeat (simpl;
          match goal with
          | |- context [os_run ?w ?c] =>
              let rc := fresh "rc" in let w' := fresh "w" in let Ez := fresh "Ez" in
              destruct (os_run w c) as [rc w'];
              simpl;
              destruct (rc =? 0)%Z eqn:Ez
          end).

Lemma log_entries_eq (l : list (string * bool * string)) (s : @St W) :
  log_entries l s
  = (mkSt (world s) (hub s) (trace s) (logs s ++ map entry_line l) (summary s), inr tt).
Proof.
  revert s; induction l as [|[[n b] m] l IH]; intros s.
  - destruct s; simpl. rewrite app_nil_r. reflexivity.
  - cbn [log_entries]. cbv [bind info modify]. rewrite IH. simpl.
    rewrite <- app_assoc. reflexivity.
Qed.

Lemma filter_split_length {A} (f : A -> bool) (l : list A) :
  length (filter f l) + length (filter (fun x => negb (f x)) l) = length l.
Proof. induction l as [|a l IH]; simpl; [reflexivity|]. destruct (f a); simpl; lia. Qed.

Lemma report_summary_eq (s : @St W) :
  let ok := filter (fun o => snd (fst o)) (summary s) in
  let fail := filter (fun o => negb (snd (fst o))) (summary s) in
  report_summary s
  = (mkSt (world s) (hub s) (trace s)
       (logs s ++ LInfo summary_header
                :: LInfo ("Succeeded: " ++ z_str (Z.of_nat (length ok)))
                :: map entry_line ok
                ++ LInfo ("Failed: " ++ z_str (Z.of_nat (length fail)))
                :: map entry_line fail)%list
       (summary s), inr tt).
Proof.
  intros ok fail. unfold report_summary.
  cbv [bind gets info modify]. fold ok fail.
  rewrite log_entries_eq. simpl. rewrite log_entries_eq. simpl.
  rewrite <- !app_assoc. reflexivity.
Qed.

(** After [process_all] of a fresh processor over a directory with at
    least one project, the console shows [Succeeded: n] and [Failed: m]
    with [n + m] the number of projects scanned. *)
Theorem process_all_counts (pr : Processor) (s : @St W) :
  os_is_dir (world s) (parent_dir pr) = true -> summary s = [] ->
  select_subdirs (world s) (parent_dir pr) <> [] ->
  exists n m,
    In (LInfo ("Succeeded: " ++ z_str (Z.of_nat n))) (logs (fst (process_all pr s))) /\
    In (LInfo ("Failed: " ++ z_str (Z.of_nat m))) (logs (fst (process_all pr s))) /\
    n + m = length (select_subdirs (world s) (parent_dir pr)).
Proof.
  intros Hd Hs Hne. unfold process_all.
  erewrite bind_eq;
    [|unfold get_subdirectories, path_is_dir, gets, bind; rewrite Hd; reflexivity].
  destruct (select_subdirs (world s) (parent_dir pr)) as [|q qs];
    [exfalso; apply Hne; reflexivity|].
  erewrite bind_eq; [|reflexivity]. cbv beta.
  match goal with |- context [bind (process_loop pr (q :: qs)) _ ?s1] =>
    destruct (process_loop_summary pr (q :: qs) s1) as [Hr [outs [Ho Hf]]];
    destruct (process_loop pr (q :: qs) s1) as [s2 r2] eqn:E end.
  simpl in Hr, Ho. subst r2. erewrite bind_eq; [|exact E].
  rewrite report_summary_eq. simpl fst. cbv zeta.
  exists (length (filter (fun o => snd (fst o)) (summary s2))),
         (length (filter (fun o => negb (snd (fst o))) (summary s2))).
  split; [|split].
  - apply in_or_app. right. right. left. reflexivity.
  - apply in_or_app. right. right. right. apply in_or_app. right. left. reflexivity.
  - rewrite filter_split_length, Ho, Hs. simpl. apply Forall2_length in Hf. simpl in Hf. lia.
Qed.

Lemma has_commits_spec (cwd : string) (s : @St W) :
  snd (has_commits cwd s) = inr (seq_ok (world s) cwd has_commits_cmds) /\
  logs (fst (has_commits cwd s)) = logs s /\
  summary (fst (has_commits cwd s)) = summary s /\
  hub (fst (has_commits cwd s)) = hub s /\
  exists k, 0 < k /\
    trace (fst (has_commits cwd s))
    = (trace s ++ cmd_events cwd (firstn k has_commits_cmds))%list.
Proof.
  cbv [has_commits has_commits_cmds try_except bind run_git_cmd ret seq_ok cmd_events
       add_event set_world].
  run_cases; simpl; (repeat split; [reflexivity..|]);
    [exists 2|exists 2|exists 1]; (split; [lia|]); simpl; rewrite <- ?app_assoc; reflexivity.
Qed.

Lemma create_repo_existing (name : string) (priv : bool) (b : string) (s : @St W) r :
  find_repo name (hub_repos (hub s)) = Some r ->
  create_repo name priv "" false (Some b) s
  = (add_log (LInfo ("Repo already exists on GitHub: " ++ name)) s, inr r).
Proof.
  intros Hf. cbv [create_repo gh_get_repo gets try_except bind ret info modify raise].
  rewrite Hf. reflexivity.
Qed.

Lemma create_repo_fresh (name : string) (priv : bool) (b : string) (s : @St W) :
  find_repo name (hub_repos (hub s)) = None ->
  exists s1 r,
    create_repo name priv "" false (Some b) s = (s1, inr r) /\
    repo_name r = name /\ hub_repos (hub s1) = (hub_repos (hub s) ++ [r])%list.
Proof.
  intros Hf.
  destruct s as [w [login repos acc ok] tr lg sm]; simpl in *.
  cbv [create_repo gh_get_repo gh_create_repo gh_edit_default_branch gets try_except
       bind ret info modify raise set_hub add_log hub world trace logs summary
       hub_repos hub_login hub_accepts hub_edit_ok is_Exception fst snd].
  rewrite Hf. unfold truthy. simpl.
  destruct (String.eqb b "") eqn:Eb; simpl; try rewrite Hf; simpl.
  - do 2 eexists; split; [reflexivity|split; reflexivity].
  - destruct (String.eqb b "main") eqn:Em; simpl.
    + do 2 eexists; split; [reflexivity|split; reflexivity].
    + destruct ok; simpl; [|do 2 eexists; split; [reflexivity|split; reflexivity]].
      do 2 eexists; split; [reflexivity|split; [reflexivity|]].
      rewrite map_app, map_rename_absent by exact Hf. simpl.
      rewrite String.eqb_refl. reflexivity.
Qed.

Lemma find_repo_app_last (name : string) (l : list Repo) (r : Repo) :
  find_repo name l = None -> repo_name r = name -> find_repo name (l ++ [r])%list = Some r.
Proof.
  unfold find_repo. induction l as [|x l IH]; simpl; intros Hf Hn.
  - rewrite Hn, String.eqb_refl. reflexivity.
  - destruct (String.eqb (repo_name x) name); [discriminate|]. apply IH; assumption.
Qed.

(** Two calls of [create_repo] for the same name, as two runs over the
    same folder make: the first adds one repository to the account, the
    second, whatever visibility and branch it asks for, returns that same
    repository and leaves the account alone. *)
Theorem create_repo_twice (name : string) (priv1 priv2 : bool) (b1 b2 : string) (s : @St W) :
  find_repo name (hub_repos (hub s)) = None ->
  match create_repo name priv1 "" false (Some b1) s with
  | (s1, inr r) =>
      length (hub_repos (hub s1)) = S (length (hub_repos (hub s))) /\
      create_repo name priv2 "" false (Some b2) s1
      = (add_log (LInfo ("Repo already exists on GitHub: " ++ name)) s1, inr r)
  | (_, inl _) => False
  end.
Proof.
  intros Hf. destruct (create_repo_fresh name priv1 b1 s Hf) as [s1 [r [E [Hn Hr]]]].
  rewrite E. split.
  - rewrite Hr, length_app. simpl. lia.
  - apply create_repo_existing. rewrite Hr. apply find_repo_app_last; assumption.
Qed.

Lemma remote_url_for_embedded (pr : Processor) (r : Repo) (t rest : string) :
  protocol pr = "HTTPS" -> push_via_token_in_https pr = true ->
  token pr = Some t -> t <> "" ->
  clone_url r = "https://" ++ rest -> has_char ":" rest = false ->
  remote_url_for pr r = "https://" ++ t ++ "@" ++ rest.
Proof.
  intros Hp Hv Ht Hne Hu Hc.
  assert (Htr : truthy (token pr) = true)
    by (rewrite Ht; unfold truthy; apply negb_true_iff, String.eqb_neq, Hne).
  unfold remote_url_for. rewrite Hp, Hv, Htr, Ht.
  change (String.eqb "HTTPS" "SSH") with false.
  change (String.eqb "HTTPS" "HTTPS") with true.
  cbv beta iota zeta delta [andb].
  rewrite Hu, Url.str_replace_https by exact Hc.
  rewrite !Url.str_app_assoc. reflexivity.
Qed.

(** With HTTPS and [--embed-token-in-https], a successful step 4 writes
    the token in clear to the console: it logs
    [Remote origin set to: https://<token>@<host/path>]. *)
Theorem https_embedding_logs_token (pr : Processor) (name cwd b : string) (s s1 : @St W)
    (g : string) (r : Repo) (t rest : string) :
  github_manager pr = Some g -> protocol pr = "HTTPS" -> push_via_token_in_https pr = true ->
  token pr = Some t -> t <> "" ->
  create_repo name (private pr) "" false (Some b) s = (s1, inr r) ->
  clone_url r = "https://" ++ rest -> has_char ":" rest = false ->
  snd (step_remote pr name cwd b s) = inr tt ->
  In (LInfo ("Remote origin set to: " ++ "https://" ++ t ++ "@" ++ rest))
     (logs (fst (step_remote pr name cwd b s))).
Proof.
  intros Hg Hp Hv Ht Hne Hcr Hu Hc.
  rewrite <- (remote_url_for_embedded pr r t rest Hp Hv Ht Hne Hu Hc).
  unfold step_remote. rewrite Hg.
  cbv [bind try_except run_git_cmd ret info modify add_event set_world add_log].
  rewrite Hcr. simpl.
  destruct (os_run (world s1) (mkCmd ["git"; "remote"; "remove"; "origin"] cwd [])) as [rc1 w1].
  simpl.
  destruct (os_run w1 (mkCmd ["git"; "remote"; "add"; "origin"; remote_url_for pr r] cwd []))
    as [rc2 w2].
  simpl. destruct (rc2 =? 0)%Z; simpl; [|discriminate].
  intros _. apply in_or_app. right. left. reflexivity.
Qed.

Lemma switch_block_no_write (cwd b : string) (s : @St W) :
  exists l, trace (fst (switch_block cwd b s)) = (trace s ++ l)%list /\
            Forall (fun e => is_write e = false) l.
Proof.
  cbv [switch_block try_except bind run_git_cmd ret add_event set_world].
  destruct (os_run (world s) (mkCmd ["git"; "checkout"; b] cwd [])) as [rc1 w1]; simpl.
  destruct (rc1 =? 0)%Z; simpl; [eexists; split; [reflexivity|repeat constructor]|].
  destruct (os_run w1 (mkCmd ["git"; "checkout"; "-b"; b] cwd [])) as [rc2 w2]; simpl.
  destruct (rc2 =? 0)%Z; simpl; eexists; (split; [rewrite <- app_assoc; reflexivity|]);
    repeat constructor.
Qed.

Lemma cmd_events_no_write (cwd : string) (l : list (list string)) :
  Forall (fun e => is_write e = false) (cmd_events cwd l).
Proof. induction l as [|a l IH]; simpl; constructor; [reflexivity|exact IH]. Qed.

(** Step 3 writes at most one file, [README.md] in the project folder
    with the placeholder text, and only where [_has_commits] said there is
    no commit yet and the folder listing is empty; everything else it adds
    to the trace is a command. *)
Theorem step_initial_commit_writes (name cwd b : string) (s : @St W) :
  exists l,
    trace (fst (step_initial_commit name cwd b s)) = (trace s ++ l)%list /\
    (forall p t, In (EWrite p t) l -> p = path_join cwd "README.md" /\ t = readme_text name) /\
    (seq_ok (world s) cwd has_commits_cmds = true -> Forall (fun e => is_write e = false) l).
Proof.
  destruct (has_commits_spec cwd s) as [Hr [_ [_ [_ [k [_ Ht]]]]]].
  unfold step_initial_commit, bind at 1.
  destruct (has_commits cwd s) as [s1 r1]. cbn [fst snd] in Hr, Ht. subst r1.
  destruct (seq_ok (world s) cwd has_commits_cmds) eqn:Hsq; cbn beta iota delta [negb].
  - destruct (switch_block_no_write cwd b s1) as [l [Hl Hf]].
    exists (cmd_events cwd (firstn k has_commits_cmds) ++ l)%list.
    split; [rewrite Hl, Ht, app_assoc; reflexivity|].
    assert (HF : Forall (fun e => is_write e = false)
                        (cmd_events cwd (firstn k has_commits_cmds) ++ l))
      by (apply Forall_app; split; [apply cmd_events_no_write|exact Hf]).
    split; [|intros _; exact HF].
    intros p t Hin. rewrite Forall_forall in HF. apply HF in Hin. discriminate.
  - unfold ensure_placeholder, path_iterdir. cbv [bind gets].
    destruct (os_iterdir (world s1) cwd) as [|x xs].
    + cbv [write_text modify]. cbn beta iota.
      set (s2 := add_event (EWrite (path_join cwd "README.md") (readme_text name))
                   (set_world (os_write_text (world s1) (path_join cwd "README.md")
                                 (readme_text name)) s1)).
      destruct (RunsPrefix_try cwd (initial_commit_cmds b) _ initial_commit_warning s2
                  (initial_commit_block_runs cwd b)) as [j [Hj _]].
      unfold initial_commit_block. rewrite Hj.
      exists (cmd_events cwd (firstn k has_commits_cmds)
              ++ EWrite (path_join cwd "README.md") (readme_text name)
              :: cmd_events cwd (firstn j (initial_commit_cmds b)))%list.
      split; [unfold s2; simpl; rewrite Ht, <- !app_assoc; reflexivity|].
      split; [|discriminate].
      intros p t Hin. apply in_app_or in Hin. destruct Hin as [Hin|[Hin|Hin]].
      * pose proof (cmd_events_no_write cwd (firstn k has_commits_cmds)) as HF.
        rewrite Forall_forall in HF. apply HF in Hin. discriminate.
      * inversion Hin. split; reflexivity.
      * pose proof (cmd_events_no_write cwd (firstn j (initial_commit_cmds b))) as HF.
        rewrite Forall_forall in HF. apply HF in Hin. discriminate.
    + cbv [ret]. cbn beta iota.
      destruct (RunsPrefix_try cwd (initial_commit_cmds b) _ initial_commit_warning s1
                  (initial_commit_block_runs cwd b)) as [j [Hj _]].
      unfold initial_commit_block. rewrite Hj.
      exists (cmd_events cwd (firstn k has_commits_cmds)
              ++ cmd_events cwd (firstn j (initial_commit_cmds b)))%list.
      split; [rewrite Ht, <- !app_assoc; reflexivity|].
      split; [|discriminate].
      intros p t Hin.
      assert (HF : Forall (fun e => is_write e = false)
                     (cmd_events cwd (firstn k has_commits_cmds)
                      ++ cmd_events cwd (firstn j (initial_commit_cmds b))))
        by (apply Forall_app; split; apply cmd_events_no_write).
      rewrite Forall_forall in HF. apply HF in Hin. discriminate.
Qed.

End Extras.

(** ** Runs of the model on concrete directory trees *)

Module Runs.
Import Sim.


(** C3: with [--create-branch dev --switch-branch main] both operations
    are applied to the same project: the branch [dev] is created and
    pushed, and then [main] is checked out. *)
Lemma two_branch_operations_applied :
  let s := fst (main args_ops (st0 ops_world)) in
  In (LInfo "Created and pushed branch dev") (logs s) /\
  In (LInfo "Switched to branch main") (logs s) /\
  In (ERun (mkCmd ["git"; "checkout"; "-b"; "dev"] "/w/gamma" [])) (trace s) /\
  In (ERun (mkCmd ["git"; "checkout"; "main"] "/w/gamma" [])) (trace s) /\
  summary s = [("gamma", true, "OK")].
Proof.
  vm_compute.
  repeat split; repeat (first [left; reflexivity | right]).
Qed.

(** C8: [alpha] is an empty folder without [.git]. [git init] creates
    [.git] before the folder is listed, so the listing is never empty and
    no placeholder file is written: the run writes no file at all, and
    [alpha], with nothing to commit, ends up failed. *)
Theorem empty_folder_gets_no_placeholder :
  os_iterdir demo "/h/p/alpha" = [] /\
  os_exists demo "/h/p/alpha/.git" = false /\
  existsb is_write (trace (fst (main args_demo (st0 demo)))) = false /\
  In (ERun (mkCmd ["git"; "init"] "/h/p/alpha" [])) (trace (fst (main args_demo (st0 demo)))) /\
  exists reason, In ("alpha", false, reason) (summary (fst (main args_demo (st0 demo)))).
Proof.
  split; [reflexivity|]. split; [vm_compute; reflexivity|].
  split; [vm_compute; reflexivity|].
  split; [vm_compute; left; reflexivity|].
  eexists. vm_compute. left. reflexivity.
Qed.

(** Witness of C1 on the demo tree. *)
Lemma process_all_isolates_project_errors_witness :
  os_is_dir demo "/h/p" = true /\ snd (process_all pr_demo (st0 demo)) = inr tt.
Proof.
  split; [vm_compute; reflexivity|].
  apply (proj2 (proj2 (process_all_isolates_project_errors pr_demo
                         (mkProject "/h/p/alpha" "alpha") [] (st0 demo)))).
  vm_compute; reflexivity.
Defined.


(** Witness of C4: [alpha] does not exist yet and is created. *)
Lemma create_repo_idempotent_witness :
  find_repo "alpha" (hub_repos hub0) = None /\
  snd (create_repo "alpha" false "" false (Some "main") (st0 demo))
  = inr (mkRepo "alpha" false "" false "main" "git@github.com:octo/alpha.git"
                "https://github.com/octo/alpha.git").
Proof.
  split; [reflexivity|].
  pose proof (proj2 (create_repo_idempotent "alpha" false "main" (st0 demo)) eq_refl) as Hw.
  cbv zeta in Hw. rewrite (proj1 Hw). vm_compute. reflexivity.
Defined.

(** Witness of C5: the empty parent [/e]. *)
Lemma get_subdirectories_contract_witness :
  select_subdirs empty_parent "/e" = [] /\
  process_all pr_empty (st0 empty_parent)
  = (add_log (LInfo "No subdirectories found under the parent path.") (st0 empty_parent), inr tt).
Proof.
  split; [vm_compute; reflexivity|].
  apply (proj2 (proj2 (proj2 (proj2 (proj2 (proj2
           (get_subdirectories_contract "/e" (st0 empty_parent)))))))).
  - reflexivity.
  - vm_compute; reflexivity.
  - vm_compute; reflexivity.
Defined.

(** Witness of C6: [git init] fails in [/z/q]; the push of [alpha] fails
    in [/h/p]. *)
Lemma command_failure_policy_witness :
  summary (fst (process_loop pr_demo [mkProject "/z/q" "q"] (st0 init_fails)))
  = [("q", false, exc_str (CalledProcessError ["git"; "init"] 1))] /\
  summary (fst (process_loop pr_demo [mkProject "/h/p/alpha" "alpha"] (st0 demo)))
  = [("alpha", false,
      "Failed to push alpha: Command '['git', 'push', '-u', 'origin', 'main']' returned non-zero exit status 1.")].
Proof.
  split.
  - rewrite (proj1 (proj2 (proj2 (proj2 (proj2 (proj2 (proj2 (proj2
             (command_failure_policy pr_demo "q" "/z/q" "main"))))))))
             (mkProject "/z/q" "q") (st0 init_fails)).
    + vm_compute; reflexivity.
    + vm_compute; reflexivity.
    + vm_compute; discriminate.
  - pose (s0 := add_log (LInfo (nl ++ "=== Processing: " ++ "alpha" ++ " ===")) (st0 demo)).
    pose (s1 := fst (step_git_init "/h/p/alpha" s0)).
    pose (s2 := fst (step_git_config pr_demo "/h/p/alpha" s1)).
    pose (s3 := fst (step_initial_commit "alpha" "/h/p/alpha" "main" s2)).
    pose (s4 := fst (step_remote pr_demo "alpha" "/h/p/alpha" "main" s3)).
    rewrite (proj2 (proj2 (proj2 (proj2 (proj2 (proj2 (proj2 (proj2 (proj2 (proj2 (proj2
             (command_failure_policy pr_demo "alpha" "/h/p/alpha" "main")))))))))))
             (mkProject "/h/p/alpha" "alpha") (st0 demo) s1 s2 s3 s4).
    + vm_compute; reflexivity.
    + vm_compute; reflexivity.
    + vm_compute; reflexivity.
    + vm_compute; reflexivity.
    + vm_compute; reflexivity.
    + vm_compute; discriminate.
Defined.

(** Witness of C7: the token goes into the HTTPS clone URL. *)
Lemma remote_url_follows_protocol_witness :
  remote_url_for pr_https
    (mkRepo "alpha" false "" false "main" "git@github.com:octo/alpha.git"
            "https://github.com/octo/alpha.git")
  = "https://ghp_good@github.com/octo/alpha.git".
Proof.
  apply (proj1 (proj2 (proj2 (remote_url_follows_protocol pr_https
           (mkRepo "alpha" false "" false "main" "git@github.com:octo/alpha.git"
                   "https://github.com/octo/alpha.git") (W:=World))))
           "ghp_good" "github.com/octo/alpha.git").
  - vm_compute; reflexivity.
  - reflexivity.
  - reflexivity.
  - discriminate.
  - reflexivity.
  - vm_compute; reflexivity.
Defined.

(** Witness of C9: two tokens, the same SSH run. *)
Lemma token_only_in_https_embedding_witness :
  process_all (set_token (Some "ghp_one") pr_demo) (st0 demo)
  = process_all (set_token (Some "ghp_two") pr_demo) (st0 demo).
Proof.
  apply (token_only_in_https_embedding pr_demo (Some "ghp_one") (Some "ghp_two") (st0 demo)).
  left. vm_compute. reflexivity.
Defined.

(** Witness of C10: the demo run. *)
Lemma process_all_one_entry_per_project_witness :
  Forall2 outcome_of (select_subdirs demo "/h/p")
          (summary (fst (process_all pr_demo (st0 demo)))).
Proof.
  apply (process_all_one_entry_per_project pr_demo (st0 demo)).
  - vm_compute; reflexivity.
  - reflexivity.
Defined.

End Runs.

(** ** Runs of the further properties *)

Module ExtraRuns.
Import Sim.

(** The demo tree: two projects, one succeeded, one failed. *)
Lemma process_all_counts_witness :
  os_is_dir demo "/h/p" = true /\
  exists n m,
    In (LInfo ("Succeeded: " ++ z_str (Z.of_nat n))) (logs (fst (process_all pr_demo (st0 demo)))) /\
    In (LInfo ("Failed: " ++ z_str (Z.of_nat m))) (logs (fst (process_all pr_demo (st0 demo)))) /\
    n + m = length (select_subdirs demo "/h/p").
Proof.
  split; [vm_compute; reflexivity|].
  apply (process_all_counts pr_demo (st0 demo)).
  - vm_compute; reflexivity.
  - reflexivity.
  - vm_compute; discriminate.
Defined.

(** [alpha] created private-less with [main], then asked again as
    private with [dev]: the same repository comes back. *)
Lemma create_repo_twice_witness :
  find_repo "alpha" (hub_repos hub0) = None /\
  snd (create_repo "alpha" true "" false (Some "dev")
         (fst (create_repo "alpha" false "" false (Some "main") (st0 demo))))
  = snd (create_repo "alpha" false "" false (Some "main") (st0 demo)).
Proof.
  split; [reflexivity|].
  pose proof (create_repo_twice "alpha" false true "main" "dev" (st0 demo) eq_refl) as Hw.
  destruct (create_repo "alpha" false "" false (Some "main") (st0 demo)) as [s1 [e|r]];
    [contradiction|].
  destruct Hw as [_ E]. simpl. rewrite E. reflexivity.
Defined.

(** [alpha] over HTTPS with the token embedded. *)
Lemma https_embedding_logs_token_witness :
  In (LInfo "Remote origin set to: https://ghp_good@github.com/octo/alpha.git")
     (logs (fst (step_remote pr_https "alpha" "/h/p/alpha" "main" (st0 demo)))).
Proof.
  apply (https_embedding_logs_token pr_https "alpha" "/h/p/alpha" "main" (st0 demo)
           (fst (create_repo "alpha" false "" false (Some "main") (st0 demo))) "octo"
           (mkRepo "alpha" false "" false "main" "git@github.com:octo/alpha.git"
                   "https://github.com/octo/alpha.git")
           "ghp_good" "github.com/octo/alpha.git").
  - reflexivity.
  - vm_compute; reflexivity.
  - reflexivity.
  - reflexivity.
  - discriminate.
  - vm_compute; reflexivity.
  - reflexivity.
  - vm_compute; reflexivity.
  - vm_compute; reflexivity.
Defined.

End ExtraRuns.
